(** * Sparse parity under Zipfian task sampling: the training script

    A shallow embedding of [scripts/sparse-parity-v1.py]: the batch
    synthesizer [get_batch], the configuration [cfg] and the entry point
    [run] (model construction, subtask creation, the step loop with its
    periodic evaluation).

    Conventions of the embedding.
    - Python integers that count or index (sizes, codes, dimensions, steps)
      are natural numbers; negative values are outside the model.
    - A tensor of shape (r, c) is a list of r rows, each a list of c entries.
      The tensors built by [get_batch] only hold the values 0 and 1, which
      every floating-point type represents exactly; they are kept as
      naturals.
    - Exceptions are values of [exn]; a computation is a function from a
      state to an outcome and the state reached, so that what a failed run
      had already written stays observable.
    - The pseudo-random generators of [random], [numpy] and [torch] are
      tapes of raw draws read from left to right.  Seeding replaces the
      tape by the one the library associates with the seed. *)

From Stdlib Require Import String ZArith QArith.
From Stdlib Require Import Bool Arith Lia List.
Import ListNotations.

Close Scope Q_scope.
Open Scope nat_scope.

Set Implicit Arguments.
Set Warnings "-abstract-large-number".

(** ** Exceptions and the state-and-exception monad *)

Inductive exn : Type :=
| AssertionError
| ValueError
| IndexError
| KeyError
| UnboundLocalError
| ZeroDivisionError
| RuntimeError.

Inductive result (A : Type) : Type :=
| Ok (a : A)
| Raise (e : exn).

Arguments Ok {A} a.
Arguments Raise {A} e.

Definition M (St A : Type) : Type := St -> result A * St.

Definition ret {St A} (a : A) : M St A := fun s => (Ok a, s).

Definition bind {St A B} (m : M St A) (f : A -> M St B) : M St B :=
  fun s => match m s with
           | (Ok a, s') => f a s'
           | (Raise e, s') => (Raise e, s')
           end.

Definition raise {St A} (e : exn) : M St A := fun s => (Raise e, s).

Definition lift {St A} (r : result A) : M St A := fun s => (r, s).

Definition gets {St A} (f : St -> A) : M St A := fun s => (Ok (f s), s).

Definition modify {St} (f : St -> St) : M St unit := fun s => (Ok tt, f s).

Declare Scope py_scope.
Delimit Scope py_scope with py.

Notation "x <- c1 ;; c2" := (bind c1 (fun x => c2))
  (at level 61, c1 at next level, right associativity) : py_scope.
Notation "' pat <- c1 ;; c2" := (bind c1 (fun x => match x with pat => c2 end))
  (at level 61, pat pattern, c1 at next level, right associativity) : py_scope.
Notation "c1 ;; c2" := (bind c1 (fun _ => c2))
  (at level 61, right associativity) : py_scope.

Open Scope py_scope.

(** [for a in l: acc = body(acc, a)], stopping at the first exception. *)
Fixpoint foldM {St A B} (body : B -> A -> M St B) (l : list A) (b : B) : M St B :=
  match l with
  | [] => ret b
  | a :: l' => b' <- body b a ;; foldM body l' b'
  end.

(** [for a in l: body(a)]. *)
Fixpoint forM_ {St A} (l : list A) (body : A -> M St unit) : M St unit :=
  match l with
  | [] => ret tt
  | a :: l' => body a ;; forM_ l' body
  end.

(** [[f(a) for a in l]] for a pure, fallible [f]. *)
Fixpoint mapR {A B} (f : A -> result B) (l : list A) : result (list B) :=
  match l with
  | [] => Ok []
  | a :: l' =>
      match f a with
      | Raise e => Raise e
      | Ok b => match mapR f l' with
                | Raise e => Raise e
                | Ok bs => Ok (b :: bs)
                end
      end
  end.

(** ** Pseudo-random generators *)

Record Rng : Type := { tape : nat -> nat; pos : nat }.

Definition advance (k : nat) (g : Rng) : Rng :=
  {| tape := tape g; pos := pos g + k |}.

Definition peek (g : Rng) (i : nat) : nat := tape g (pos g + i).

(** [torch.randint(low=0, high=2, size=(size, n))]: a size-by-n tensor of
    independent bits, read row by row from the generator. *)
Definition randint (size n : nat) : M Rng (list (list nat)) :=
  fun g =>
    (Ok (map (fun i => map (fun j => peek g (i * n + j) mod 2) (seq 0 n)) (seq 0 size)),
     advance (size * n) g).

(** ** Tensor operations used by [get_batch] *)

(** [torch.zeros((r, c))] and [torch.zeros((r,))]. *)
Definition zeros2 (r c : nat) : list (list nat) := repeat (repeat 0 c) r.
Definition zeros1 (r : nat) : list nat := repeat 0 r.

(** [row[j] = v] for [j] in range. *)
Fixpoint set_nth (j v : nat) (row : list nat) : list nat :=
  match row, j with
  | [], _ => []
  | _ :: t, O => v :: t
  | h :: t, S j' => h :: set_nth j' v t
  end.

(** [x[:, S]] for a tensor [x] with [n] columns ([S_] stands for the
    source's [S]): the columns listed in [S_], in that order; an index outside the columns raises [IndexError]. *)
Definition index_columns (n : nat) (x : list (list nat)) (S_ : list nat)
  : result (list (list nat)) :=
  if forallb (fun s => s <? n) S_
  then Ok (map (fun row => map (fun s => nth s row 0) S_) x)
  else Raise IndexError.

(** [torch.sum(t, dim=1) % 2]. *)
Definition sum_mod2 (t : list (list nat)) : list nat :=
  map (fun row => list_sum row mod 2) t.

(** [t[:, code] = 1] for a tensor [t] with [c] columns. *)
Definition set_column (c code : nat) (t : list (list nat)) : result (list (list nat)) :=
  if code <? c then Ok (map (set_nth code 1) t) else Raise IndexError.

(** [torch.cat([a, b], dim=1)] for tensors with the same number of rows. *)
Fixpoint cat1 (a b : list (list nat)) : list (list nat) :=
  match a, b with
  | ra :: a', rb :: b' => (ra ++ rb) :: cat1 a' b'
  | _, _ => []
  end.

(** [dst[lo:hi] = src] where [src] has [hi - lo] rows.  The slice lies
    inside [dst] in every call made by [get_batch] (lemma
    [get_batch_loop_inv]); a slice that would be clipped is outside the
    model and reported as [RuntimeError]. *)
Definition assign_rows {A} (lo hi : nat) (src dst : list A) : result (list A) :=
  if hi <=? length dst
  then Ok (firstn lo dst ++ src ++ skipn hi dst)
  else Raise RuntimeError.

(** ** [get_batch] *)

(** The loop variables of [get_batch]. *)
Record batch_acc : Type := {
  batch_x : list (list nat);
  batch_y : list nat;
  start_i : nat
}.

(** [zip(Ss, sizes, codes)]. *)
Definition zip3 {A B C} (a : list A) (b : list B) (c : list C) : list (A * B * C) :=
  combine (combine a b) c.

(** One iteration of [for (S, size, code) in zip(Ss, sizes, codes)]. *)
Definition get_batch_step (n_tasks n : nat) (acc : batch_acc)
  (group : list nat * nat * nat) : M Rng batch_acc :=
  let '(S_, size, code) := group in
  if 0 <? size then
    x <- randint size n ;;
    xS <- lift (index_columns n x S_) ;;
    let y := sum_mod2 xS in
    x_task_code <- lift (set_column n_tasks code (zeros2 size n_tasks)) ;;
    let x := cat1 x_task_code x in
    bx <- lift (assign_rows (start_i acc) (start_i acc + size) x (batch_x acc)) ;;
    by_ <- lift (assign_rows (start_i acc) (start_i acc + size) y (batch_y acc)) ;;
    ret {| batch_x := bx; batch_y := by_; start_i := start_i acc + size |}
  else ret acc.

Definition get_batch (n_tasks n : nat) (Ss : list (list nat)) (codes sizes : list nat)
  : M Rng (list (list nat) * list nat) :=
  let acc0 := {| batch_x := zeros2 (list_sum sizes) (n_tasks + n);
                 batch_y := zeros1 (list_sum sizes);
                 start_i := 0 |} in
  acc <- foldM (get_batch_step n_tasks n) (zip3 Ss sizes codes) acc0 ;;
  ret (batch_x acc, batch_y acc).

(** ** Python lists and dictionaries as the script uses them *)

(** [l[i]] for a non-negative index. *)
Definition list_index {A} (l : list A) (i : nat) : result A :=
  match nth_error l i with
  | Some a => Ok a
  | None => Raise IndexError
  end.

(** [a % b] and [a / b] on non-negative integers. *)
Definition py_mod (a b : nat) : result nat :=
  if b =? 0 then Raise ZeroDivisionError else Ok (a mod b).

Definition py_truediv (a b : nat) : result Q :=
  if b =? 0 then Raise ZeroDivisionError
  else Ok (Qmake (Z.of_nat a) (Pos.of_nat b)).

(** [hist = defaultdict(int)]: a dictionary keeps its keys in the order of
    their first insertion, so it is an association list.  [hist_incr s] is
    [hist[s] += 1] and [hist_get c] is [hist[c]]. *)
Fixpoint hist_incr (s : nat) (hist : list (nat * nat)) : list (nat * nat) :=
  match hist with
  | [] => [(s, 1)]
  | (key, v) :: h => if key =? s then (key, v + 1) :: h else (key, v) :: hist_incr s h
  end.

Fixpoint hist_get (c : nat) (hist : list (nat * nat)) : nat :=
  match hist with
  | [] => 0
  | (key, v) :: h => if key =? c then v else hist_get c h
  end.

(** [for s in samples: hist[s] += 1]. *)
Definition histogram (samples : list nat) : list (nat * nat) :=
  fold_left (fun hist s => hist_incr s hist) samples [].

(** [d = defaultdict(list)]: [dd_touch i] is the lookup [d[i]], which
    inserts the empty list under a missing key, and [dd_append i v] is
    [d[i].append(v)]. *)
Fixpoint dd_touch {V} (i : nat) (d : list (nat * list V)) : list (nat * list V) :=
  match d with
  | [] => [(i, [])]
  | (key, l) :: d' => if key =? i then d else (key, l) :: dd_touch i d'
  end.

Fixpoint dd_append {V} (i : nat) (v : V) (d : list (nat * list V)) : list (nat * list V) :=
  match d with
  | [] => [(i, [v])]
  | (key, l) :: d' => if key =? i then (key, l ++ [v]) :: d' else (key, l) :: dd_append i v d'
  end.

(** ** The library generators *)

(** One raw draw. *)
Definition next : M Rng nat := fun g => (Ok (peek g 0), advance 1 g).

(** [pool] without its [j]-th element. *)
Fixpoint remove_nth {A} (j : nat) (pool : list A) : list A :=
  match pool, j with
  | [], _ => []
  | _ :: t, O => t
  | h :: t, S j' => h :: remove_nth j' t
  end.

(** Selection without replacement of [k] elements of [pool]. *)
Fixpoint sample_pool (k : nat) (pool : list nat) : M Rng (list nat) :=
  match k with
  | O => ret []
  | S k' =>
      r <- next ;;
      let j := r mod length pool in
      rest <- sample_pool k' (remove_nth j pool) ;;
      ret (nth j pool 0 :: rest)
  end.

(** [random.sample(range(n), k)]: [k] distinct elements of [0, n) in
    selection order; [ValueError] when the sample is larger than the
    population. *)
Definition random_sample (n k : nat) : M Rng (list nat) :=
  if n <? k then raise ValueError else sample_pool k (seq 0 n).

(** [scipy.stats.zipfian.rvs(alpha, n_tasks, size=m)]: [m] ranks in
    [1 .. n_tasks], drawn with numpy's global generator.  The shape
    parameters must satisfy [alpha >= 0] and [n_tasks > 0], otherwise the
    library raises [ValueError].  Which rank a raw draw yields is left to
    the tape: every sequence of ranks in the support is the outcome of some
    tape. *)
Definition zipfian_rvs (alpha : Q) (n_tasks m : nat) : M Rng (list nat) :=
  if (n_tasks =? 0) || negb (Qle_bool 0 alpha) then raise ValueError
  else fun g => (Ok (map (fun i => 1 + peek g i mod n_tasks) (seq 0 m)), advance m g).

(** ** Configuration *)

Record Config : Type := {
  n_tasks : nat;
  n : nat;
  k : nat;
  alpha : Q;
  width : nat;
  depth : nat;
  activation : string;
  steps : nat;
  batch_size : nat;
  lr : Q;
  test_points : nat;
  test_points_per_task : nat;
  log_freq : nat;
  verbose : bool
}.

(** The configuration function [cfg]; sacred evaluates it with the
    overridden entries in place, so that [log_freq] follows an overridden
    [steps].  [device] and [dtype] select the execution target and the
    floating-point precision and are not part of the model. *)
Definition cfg_with_steps (steps : nat) : Config :=
  {| n_tasks := 100; n := 50; k := 3; alpha := 15 # 10;
     width := 100; depth := 2; activation := "ReLU";
     steps := steps; batch_size := 10000; lr := 1 # 1000;
     test_points := 30000; test_points_per_task := 1000;
     log_freq := steps / 1000; verbose := false |}.

Definition cfg : Config := cfg_with_steps 25000.

(** ** The Learner's layers *)

Inductive activation_fn : Type := ReLU | Tanh | Sigmoid.

Inductive layer : Type :=
| Linear (in_features out_features : nat)
| Activation (f : activation_fn).

(** The [if]/[elif] chain on the activation identifier. *)
Definition resolve_activation (name : string) : result activation_fn :=
  if String.eqb name "ReLU" then Ok ReLU
  else if String.eqb name "Tanh" then Ok Tanh
  else if String.eqb name "Sigmoid" then Ok Sigmoid
  else Raise AssertionError.

(** The body of [for i in range(depth)]. *)
Definition add_layer (n_in width depth : nat) (f : activation_fn)
  (layers : list layer) (i : nat) : list layer :=
  if i =? 0 then layers ++ [Linear n_in width; Activation f]
  else if i =? depth - 1 then layers ++ [Linear width 2]
  else layers ++ [Linear width width; Activation f].

Definition build_layers (n_in width depth : nat) (f : activation_fn) : list layer :=
  fold_left (add_layer n_in width depth f) (seq 0 depth) [].

(** [t.numel()] summed over the parameters of a layer: weight and bias. *)
Definition numel (l : layer) : nat :=
  match l with
  | Linear i o => i * o + o
  | Activation _ => 0
  end.

Definition count_parameters (layers : list layer) : nat :=
  list_sum (map numel layers).

(** [mlp.parameters()] is not empty: some module of the stack has weights. *)
Definition has_parameters (layers : list layer) : bool :=
  existsb (fun l => match l with Linear _ _ => true | Activation _ => false end) layers.

(** Line 172: [torch.optim.Adam(mlp.parameters(), lr=lr)] raises
    [ValueError] for a negative learning rate and for an empty parameter
    list; the optimizer state it creates is part of [Params]. *)
Definition make_optimizer (layers : list layer) (lr : Q) : result unit :=
  if negb (Qle_bool 0 lr) then Raise ValueError
  else if has_parameters layers then Ok tt
  else Raise ValueError.

(** ** The numerical library

    The floating-point operations of torch are not computed by the model:
    they are the fields of [Torch], and every statement about [run] holds
    for each implementation of them.  [Params] holds the weights and biases
    of the stack together with the optimizer's moment estimates.  Building
    the layers cannot fail on dimensions that are natural numbers; every
    other operation may raise. *)

Record Torch : Type := {
  Float : Type;
  Params : Type;
  (** [nn.Linear(...)] for each layer, in order; the initial weights are
      drawn from torch's generator. *)
  init_params : list layer -> Rng -> Params * Rng;
  (** [mlp(x)]: one row of logits per input row. *)
  forward : list layer -> Params -> list (list nat) -> result (list (list Float));
  (** [torch.argmax(y_pred, dim=1)]. *)
  argmax : list (list Float) -> result (list nat);
  (** [nn.CrossEntropyLoss()(y_pred, y)]. *)
  loss_fn : list (list Float) -> list nat -> result Float;
  (** [loss.backward(); optimizer.step()] for Adam with learning rate [lr]. *)
  optimizer_step : Q -> list layer -> Params -> list (list nat) -> list nat -> result Params;
  (** The raw draws of [random], [numpy] and [torch] after seeding. *)
  random_seed : Z -> nat -> nat;
  np_random_seed : Z -> nat -> nat;
  torch_manual_seed : Z -> nat -> nat
}.

(** [torch.sum(labels_pred == y).item()]. *)
Fixpoint count_matches (labels_pred y : list nat) : nat :=
  match labels_pred, y with
  | a :: l1, b :: l2 => (if a =? b then 1 else 0) + count_matches l1 l2
  | _, _ => 0
  end.

(** What [_log.debug] received. *)
Inductive log_message : Type :=
| CreatedModel
| ModelHasParameters (P : nat).

(** Ghost history of the run: the composition (codes and sizes) of every
    Zipfian batch requested, and the optimizer updates carried out. *)
Inductive event : Type :=
| EvaluationBatch (step : nat) (codes sizes : list nat)
| TrainingBatch (step : nat) (codes sizes : list nat)
| OptimizerStep (step : nat).

Section Run.

Context (T : Torch).

(** [ex.info]: a key is [None] until the script assigns it. *)
Record Info : Type := {
  info_P : option nat;
  info_D : option nat;
  info_Ss : option (list (list nat));
  log_steps : option (list nat);
  accuracies : option (list Q);
  losses : option (list (Float T));
  losses_subtasks : option (list (nat * list (Float T)));
  accuracies_subtasks : option (list (nat * list Q))
}.

Definition empty_info : Info :=
  {| info_P := None; info_D := None; info_Ss := None; log_steps := None;
     accuracies := None; losses := None; losses_subtasks := None;
     accuracies_subtasks := None |}.

(** The state of a run: the three global generators, [ex.info], the debug
    log, the local variables of [run] that are assigned after their first
    possible use or mutated in place ([mlp] together with its optimizer,
    [loss]), and the ghost history. *)
Record State : Type := {
  py_random : Rng;
  np_random : Rng;
  torch_random : Rng;
  info : Info;
  debug_log : list log_message;
  mlp : option (list layer * Params T);
  loss : option (Float T);
  history : list event
}.

(** A fresh process: the generators are in whatever state the environment
    left them. *)
Definition initial_state (py np tc : Rng) : State :=
  {| py_random := py; np_random := np; torch_random := tc;
     info := empty_info; debug_log := []; mlp := None; loss := None;
     history := [] |}.

Definition with_info (f : Info -> Info) (s : State) : State :=
  {| py_random := py_random s; np_random := np_random s; torch_random := torch_random s;
     info := f (info s); debug_log := debug_log s; mlp := mlp s; loss := loss s;
     history := history s |}.

Definition set_mlp (m : list layer * Params T) (s : State) : State :=
  {| py_random := py_random s; np_random := np_random s; torch_random := torch_random s;
     info := info s; debug_log := debug_log s; mlp := Some m; loss := loss s;
     history := history s |}.

Definition set_loss (l : Float T) (s : State) : State :=
  {| py_random := py_random s; np_random := np_random s; torch_random := torch_random s;
     info := info s; debug_log := debug_log s; mlp := mlp s; loss := Some l;
     history := history s |}.

Definition add_log (m : log_message) (s : State) : State :=
  {| py_random := py_random s; np_random := np_random s; torch_random := torch_random s;
     info := info s; debug_log := debug_log s ++ [m]; mlp := mlp s; loss := loss s;
     history := history s |}.

Definition add_event (e : event) (s : State) : State :=
  {| py_random := py_random s; np_random := np_random s; torch_random := torch_random s;
     info := info s; debug_log := debug_log s; mlp := mlp s; loss := loss s;
     history := history s ++ [e] |}.

(** Lines 136-139: every generator is re-seeded from [seed]. *)
Definition seed_generators (seed : Z) (s : State) : State :=
  {| py_random := {| tape := random_seed T seed; pos := 0 |};
     np_random := {| tape := np_random_seed T seed; pos := 0 |};
     torch_random := {| tape := torch_manual_seed T seed; pos := 0 |};
     info := info s; debug_log := debug_log s; mlp := mlp s; loss := loss s;
     history := history s |}.

(** Running a computation on one of the generators. *)
Definition with_py {A} (m : M Rng A) : M State A :=
  fun s => let (r, g) := m (py_random s) in
    (r, {| py_random := g; np_random := np_random s; torch_random := torch_random s;
           info := info s; debug_log := debug_log s; mlp := mlp s; loss := loss s;
           history := history s |}).

Definition with_np {A} (m : M Rng A) : M State A :=
  fun s => let (r, g) := m (np_random s) in
    (r, {| py_random := py_random s; np_random := g; torch_random := torch_random s;
           info := info s; debug_log := debug_log s; mlp := mlp s; loss := loss s;
           history := history s |}).

Definition with_torch {A} (m : M Rng A) : M State A :=
  fun s => let (r, g) := m (torch_random s) in
    (r, {| py_random := py_random s; np_random := np_random s; torch_random := g;
           info := info s; debug_log := debug_log s; mlp := mlp s; loss := loss s;
           history := history s |}).

(** Reading a local variable; an unbound one raises. *)
Definition read_local {A} (var : State -> option A) : M State A :=
  fun s => match var s with
           | Some a => (Ok a, s)
           | None => (Raise UnboundLocalError, s)
           end.

(** Assignments [ex.info[key] = v]. *)
Definition set_P (v : nat) (i : Info) : Info :=
  {| info_P := Some v; info_D := info_D i; info_Ss := info_Ss i; log_steps := log_steps i;
     accuracies := accuracies i; losses := losses i; losses_subtasks := losses_subtasks i;
     accuracies_subtasks := accuracies_subtasks i |}.

Definition set_D (v : nat) (i : Info) : Info :=
  {| info_P := info_P i; info_D := Some v; info_Ss := info_Ss i; log_steps := log_steps i;
     accuracies := accuracies i; losses := losses i; losses_subtasks := losses_subtasks i;
     accuracies_subtasks := accuracies_subtasks i |}.

Definition set_Ss (v : list (list nat)) (i : Info) : Info :=
  {| info_P := info_P i; info_D := info_D i; info_Ss := Some v; log_steps := log_steps i;
     accuracies := accuracies i; losses := losses i; losses_subtasks := losses_subtasks i;
     accuracies_subtasks := accuracies_subtasks i |}.

Definition set_log_steps (v : list nat) (i : Info) : Info :=
  {| info_P := info_P i; info_D := info_D i; info_Ss := info_Ss i; log_steps := Some v;
     accuracies := accuracies i; losses := losses i; losses_subtasks := losses_subtasks i;
     accuracies_subtasks := accuracies_subtasks i |}.

Definition set_accuracies (v : list Q) (i : Info) : Info :=
  {| info_P := info_P i; info_D := info_D i; info_Ss := info_Ss i; log_steps := log_steps i;
     accuracies := Some v; losses := losses i; losses_subtasks := losses_subtasks i;
     accuracies_subtasks := accuracies_subtasks i |}.

Definition set_losses (v : list (Float T)) (i : Info) : Info :=
  {| info_P := info_P i; info_D := info_D i; info_Ss := info_Ss i; log_steps := log_steps i;
     accuracies := accuracies i; losses := Some v; losses_subtasks := losses_subtasks i;
     accuracies_subtasks := accuracies_subtasks i |}.

Definition set_losses_subtasks (v : list (nat * list (Float T))) (i : Info) : Info :=
  {| info_P := info_P i; info_D := info_D i; info_Ss := info_Ss i; log_steps := log_steps i;
     accuracies := accuracies i; losses := losses i; losses_subtasks := Some v;
     accuracies_subtasks := accuracies_subtasks i |}.

Definition set_accuracies_subtasks (v : list (nat * list Q)) (i : Info) : Info :=
  {| info_P := info_P i; info_D := info_D i; info_Ss := info_Ss i; log_steps := log_steps i;
     accuracies := accuracies i; losses := losses i; losses_subtasks := losses_subtasks i;
     accuracies_subtasks := Some v |}.

(** [ex.info[key]]: a missing key raises. *)
Definition read_info {A} (key : Info -> option A) : M State A :=
  fun s => match key (info s) with
           | Some a => (Ok a, s)
           | None => (Raise KeyError, s)
           end.

(** [ex.info[key].append(arg)]: the list is looked up, then the argument
    is evaluated, then the value is appended. *)
Definition append_info {A} (key : Info -> option (list A))
  (set : list A -> Info -> Info) (arg : M State A) : M State unit :=
  l <- read_info key ;;
  v <- arg ;;
  modify (with_info (set (l ++ [v]))).

(** [ex.info[key][i].append(arg)] on a [defaultdict(list)]: the lookup
    [ex.info[key][i]] comes first and creates the entry of subtask [i];
    then the argument is evaluated and the value appended. *)
Definition append_info_subtask {A} (key : Info -> option (list (nat * list A)))
  (set : list (nat * list A) -> Info -> Info) (i : nat) (arg : M State A)
  : M State unit :=
  d <- read_info key ;;
  modify (with_info (set (dd_touch i d))) ;;
  v <- arg ;;
  d' <- read_info key ;;
  modify (with_info (set (dd_append i v d'))).

(** Lines 181-186 and 201-206: the Zipfian draw and its histogram.  The
    codes are the keys of the histogram, that is the drawn ranks. *)
Definition draw_composition (alpha : Q) (n_tasks m : nat) : M Rng (list nat * list nat) :=
  samples <- zipfian_rvs alpha n_tasks m ;;
  let hist := histogram samples in
  let codes := map fst hist in
  let sizes := map (fun c => hist_get c hist) codes in
  ret (codes, sizes).

(** Lines 187 and 207: [[Ss[c] for c in codes]]. *)
Definition select_subtasks (Ss : list (list nat)) (codes : list nat)
  : result (list (list nat)) :=
  mapR (list_index Ss) codes.

(** Lines 194-198: the probe of subtask [i]. *)
Definition evaluate_subtask (c : Config) (Ss : list (list nat)) (i : nat) : M State unit :=
  S_i <- lift (list_index Ss i) ;;
  '(x_i, y_i) <- with_torch (get_batch (n_tasks c) (n c) [S_i] [i] [test_points_per_task c]) ;;
  '(layers, params) <- read_local mlp ;;
  y_i_pred <- lift (forward T layers params x_i) ;;
  append_info_subtask losses_subtasks set_losses_subtasks i
    (lift (loss_fn T y_i_pred y_i)) ;;
  labels_i_pred <- lift (argmax T y_i_pred) ;;
  append_info_subtask accuracies_subtasks set_accuracies_subtasks i
    (lift (py_truediv (count_matches labels_i_pred y_i) (test_points_per_task c))).

(** Lines 180-198: the body of [if step % log_freq == 0]. *)
Definition evaluate (c : Config) (Ss : list (list nat)) (step : nat) : M State unit :=
  '(codes, sizes) <- with_np (draw_composition (alpha c) (n_tasks c) (test_points c)) ;;
  modify (add_event (EvaluationBatch step codes sizes)) ;;
  batch_Ss <- lift (select_subtasks Ss codes) ;;
  '(x_i, y_i) <- with_torch (get_batch (n_tasks c) (n c) batch_Ss codes sizes) ;;
  '(layers, params) <- read_local mlp ;;
  y_i_pred <- lift (forward T layers params x_i) ;;
  labels_i_pred <- lift (argmax T y_i_pred) ;;
  append_info accuracies set_accuracies
    (lift (py_truediv (count_matches labels_i_pred y_i) (test_points c))) ;;
  append_info losses set_losses (read_local loss) ;;
  forM_ (seq 0 (n_tasks c)) (evaluate_subtask c Ss).

(** Lines 200-212: one training update.  [optimizer.zero_grad()] clears
    gradients that the model does not keep. *)
Definition train (c : Config) (Ss : list (list nat)) (step : nat) : M State unit :=
  '(codes, sizes) <- with_np (draw_composition (alpha c) (n_tasks c) (batch_size c)) ;;
  modify (add_event (TrainingBatch step codes sizes)) ;;
  batch_Ss <- lift (select_subtasks Ss codes) ;;
  '(x, y_target) <- with_torch (get_batch (n_tasks c) (n c) batch_Ss codes sizes) ;;
  '(layers, params) <- read_local mlp ;;
  y_pred <- lift (forward T layers params x) ;;
  l <- lift (loss_fn T y_pred y_target) ;;
  modify (set_loss l) ;;
  params' <- lift (optimizer_step T (lr c) layers params x y_target) ;;
  modify (set_mlp (layers, params')) ;;
  modify (add_event (OptimizerStep step)).

(** Lines 179-212: the body of [for step in range(steps)]. *)
Definition run_step (c : Config) (Ss : list (list nat)) (step : nat) : M State unit :=
  r <- lift (py_mod step (log_freq c)) ;;
  (if r =? 0 then evaluate c Ss step else ret tt) ;;
  train c Ss step.

(** Line 168: [[random.sample(range(n), k) for _ in range(n_tasks)]]. *)
Fixpoint make_Ss (n k n_tasks : nat) : M Rng (list (list nat)) :=
  match n_tasks with
  | O => ret []
  | S n_tasks' =>
      S_ <- random_sample n k ;;
      rest <- make_Ss n k n_tasks' ;;
      ret (S_ :: rest)
  end.

(** Lines 135-212. *)
Definition run (c : Config) (seed : Z) : M State unit :=
  modify (seed_generators seed) ;;
  activation_fn <- lift (resolve_activation (activation c)) ;;
  let layers := build_layers (n_tasks c + n c) (width c) (depth c) activation_fn in
  params <- with_torch (fun g => let (p, g') := init_params T layers g in (Ok p, g')) ;;
  modify (set_mlp (layers, params)) ;;
  modify (add_log CreatedModel) ;;
  modify (add_log (ModelHasParameters (count_parameters layers))) ;;
  modify (with_info (set_P (count_parameters layers))) ;;
  modify (with_info (set_D (steps c * batch_size c))) ;;
  Ss <- with_py (make_Ss (n c) (k c) (n_tasks c)) ;;
  modify (with_info (set_Ss Ss)) ;;
  lift (make_optimizer layers (lr c)) ;;
  modify (with_info (set_log_steps [])) ;;
  modify (with_info (set_accuracies [])) ;;
  modify (with_info (set_losses [])) ;;
  modify (with_info (set_losses_subtasks [])) ;;
  modify (with_info (set_accuracies_subtasks [])) ;;
  forM_ (seq 0 (steps c)) (run_step c Ss).

End Run.

Arguments initial_state T py np tc : clear implicits.
Arguments empty_info T : clear implicits.
Arguments evaluate_subtask T c Ss i : clear implicits.
Arguments evaluate T c Ss step : clear implicits.
Arguments train T c Ss step : clear implicits.
Arguments run_step T c Ss step : clear implicits.
Arguments run T c seed : clear implicits.

(** ** A small implementation of the numerical interface

    Used to run the model on concrete configurations.  The classifier
    predicts label 0 on every row, the loss counts the rows whose label is
    1, an update increments a counter, and the generators seeded with
    [seed] produce [seed], [seed + 1], ... *)

Definition counting_tape (seed : Z) (i : nat) : nat := Z.to_nat seed + i.

Definition toy_torch : Torch :=
  {| Float := nat;
     Params := nat;
     init_params := fun layers g => (0, advance (count_parameters layers) g);
     forward := fun _ _ x => Ok (map (fun _ => [1; 0]) x);
     argmax := fun y_pred => Ok (map (fun _ => 0) y_pred);
     loss_fn := fun _ y => Ok (list_sum y);
     optimizer_step := fun _ _ p _ _ => Ok (S p);
     random_seed := counting_tape;
     np_random_seed := counting_tape;
     torch_manual_seed := counting_tape |}.

Definition idle : Rng := {| tape := fun _ => 0; pos := 0 |}.

(** The end-to-end example of the design notes, with three and with eight
    evaluation points. *)
Definition small_config (test_points : nat) : Config :=
  {| n_tasks := 4; n := 10; k := 2; alpha := 15 # 10;
     width := 3; depth := 2; activation := "ReLU";
     steps := 1; batch_size := 8; lr := 1 # 1000;
     test_points := test_points; test_points_per_task := 2;
     log_freq := 1; verbose := false |}.

(** ** Vocabulary of the statements *)

(** The one-hot task channel of subtask [code]. *)
Definition one_hot (n_tasks code : nat) : list nat := set_nth code 1 (repeat 0 n_tasks).

(** The label that [get_batch] computes for one row of bits: the sum of the
    selected entries, modulo 2. *)
Definition parity (S_ bits : list nat) : nat :=
  list_sum (map (fun s => nth s bits 0) S_) mod 2.

(** The row [bits] with its [j]-th bit flipped. *)
Definition flip (j : nat) (bits : list nat) : list nat :=
  set_nth j (1 - nth j bits 0) bits.

(** The requests of a call, one per row to generate: the subtask and the
    code of each row, in batch order. *)
Definition group_size (g : list nat * nat * nat) : nat := snd (fst g).

Definition rows_of (groups : list (list nat * nat * nat)) : list (list nat * nat) :=
  flat_map (fun g => repeat (fst (fst g), snd g) (group_size g)) groups.

(** A request is served without [IndexError]. *)
Definition group_ok (n_tasks n : nat) (g : list nat * nat * nat) : bool :=
  (group_size g =? 0)
  || (forallb (fun s => s <? n) (fst (fst g)) && (snd g <? n_tasks)).

(** The tensor that [randint size n] reads from generator [g]. *)
Definition bits_of (g : Rng) (size n : nat) : list (list nat) :=
  map (fun i => map (fun j => peek g (i * n + j) mod 2) (seq 0 n)) (seq 0 size).

(** The loop variables of [get_batch] when [X] and [Y] have been written
    and [r] rows are still zero. *)
Definition acc_of (w : nat) (X : list (list nat)) (Y : list nat) (r : nat) : batch_acc :=
  {| batch_x := X ++ zeros2 r w; batch_y := Y ++ zeros1 r; start_i := length X |}.

(** A generated row and its label, for the request [(S_, code)]. *)
Definition row_ok (n_tasks n : nat) (req : list nat * nat) (ex : list nat * nat) : Prop :=
  exists bits,
    fst ex = one_hot n_tasks (snd req) ++ bits /\
    length bits = n /\
    Forall (fun b => b < 2) bits /\
    snd ex = parity (fst req) bits.

(** The Learner as the design describes it: [depth] affine layers with the
    nonlinearity between all but the last, the last one giving 2 logits;
    a single layer maps the input directly to the logits. *)
Definition hidden_layers (width : nat) (f : activation_fn) (m : nat) : list layer :=
  concat (repeat [Linear width width; Activation f] m).

Definition learner_spec (n_in width depth : nat) (f : activation_fn) : list layer :=
  match depth with
  | 0 => []
  | 1 => [Linear n_in 2]
  | S (S m) => Linear n_in width :: Activation f :: hidden_layers width f m ++ [Linear width 2]
  end.

(** The affine layers of a stack. *)
Definition affine_layers (layers : list layer) : list (nat * nat) :=
  flat_map (fun l => match l with Linear i o => [(i, o)] | Activation _ => [] end) layers.

(** The state in which [run] enters its loop: the generators seeded and
    advanced by the model and subtask construction, the entries written to
    [ex.info], the two debug messages, and no value bound to [loss]. *)
Definition ready_info (T : Torch) (c : Config) (layers : list layer)
  (Ss : list (list nat)) : Info T :=
  {| info_P := Some (count_parameters layers);
     info_D := Some (steps c * batch_size c);
     info_Ss := Some Ss;
     log_steps := Some [];
     accuracies := Some [];
     losses := Some [];
     losses_subtasks := Some [];
     accuracies_subtasks := Some [] |}.

Definition ready_state (T : Torch) (c : Config) (seed : Z) (layers : list layer)
  (params : Params T) (g_py g_torch : Rng) (Ss : list (list nat)) : State T :=
  {| py_random := g_py;
     np_random := {| tape := np_random_seed T seed; pos := 0 |};
     torch_random := g_torch;
     info := ready_info T c layers Ss;
     debug_log := [CreatedModel; ModelHasParameters (count_parameters layers)];
     mlp := Some (layers, params);
     loss := None;
     history := [] |}.

(** The state in which [run] stops when subtask creation fails: the model
    is built and [P] and [D] are recorded, nothing else. *)
Definition model_built_state (T : Torch) (c : Config) (seed : Z) (layers : list layer)
  (params : Params T) (g_py g_torch : Rng) : State T :=
  {| py_random := g_py;
     np_random := {| tape := np_random_seed T seed; pos := 0 |};
     torch_random := g_torch;
     info := set_D (steps c * batch_size c)
               (set_P (count_parameters layers) (empty_info T));
     debug_log := [CreatedModel; ModelHasParameters (count_parameters layers)];
     mlp := Some (layers, params);
     loss := None;
     history := [] |}.

(** The state in which [run] stops when the optimizer cannot be created:
    the model is built, [P], [D] and the Subtask Set are recorded, and no
    metric series exists. *)
Definition subtasks_stored_state (T : Torch) (c : Config) (seed : Z)
  (layers : list layer) (params : Params T) (g_py g_torch : Rng)
  (Ss : list (list nat)) : State T :=
  {| py_random := g_py;
     np_random := {| tape := np_random_seed T seed; pos := 0 |};
     torch_random := g_torch;
     info := set_Ss Ss (set_D (steps c * batch_size c)
               (set_P (count_parameters layers) (empty_info T)));
     debug_log := [CreatedModel; ModelHasParameters (count_parameters layers)];
     mlp := Some (layers, params);
     loss := None;
     history := [] |}.

(** Two stores that differ at most in the aggregate accuracies. *)
Definition same_but_accuracies {T : Torch} (i i' : Info T) : Prop :=
  info_P i' = info_P i /\ info_D i' = info_D i /\ info_Ss i' = info_Ss i /\
  log_steps i' = log_steps i /\ losses i' = losses i /\
  losses_subtasks i' = losses_subtasks i /\
  accuracies_subtasks i' = accuracies_subtasks i.

(** A series that holds no entry: not yet created, or created and empty. *)
Definition no_entry {A} (series : option (list A)) : Prop :=
  series = None \/ series = Some [].

(** The number of entries the design expects in [log_steps] after a run:
    [ceil(steps / log_freq)]. *)
Definition expected_log_entries (steps log_freq : nat) : nat :=
  (steps + log_freq - 1) / log_freq.

(** A state as a completed setup leaves it, for experiments with the steps
    of the loop: numpy's generator yields the ranks 1, 2, 3, 1, 2, 3, ... *)
Definition small_Ss : list (list nat) := [[0; 2]; [2; 4]; [4; 6]; [6; 8]].

Definition small_state : State toy_torch :=
  {| py_random := idle;
     np_random := {| tape := fun i => i mod 3; pos := 0 |};
     torch_random := {| tape := fun i => i * i / 3; pos := 0 |};
     info := ready_info toy_torch (small_config 3) (build_layers 14 3 2 ReLU) small_Ss;
     debug_log := [CreatedModel; ModelHasParameters 53];
     mlp := Some (build_layers 14 3 2 ReLU, 0);
     loss := None;
     history := [] |}.

(** The end-to-end example with more selected positions than bits. *)
Definition oversized_k_config : Config :=
  {| n_tasks := 4; n := 10; k := 11; alpha := 15 # 10;
     width := 3; depth := 2; activation := "ReLU";
     steps := 1; batch_size := 8; lr := 1 # 1000;
     test_points := 3; test_points_per_task := 2;
     log_freq := 1; verbose := false |}.

(** The end-to-end example with an activation identifier that the script
    does not know. *)
Definition unknown_activation_config : Config :=
  {| n_tasks := 4; n := 10; k := 2; alpha := 15 # 10;
     width := 3; depth := 2; activation := "GELU";
     steps := 1; batch_size := 8; lr := 1 # 1000;
     test_points := 3; test_points_per_task := 2;
     log_freq := 1; verbose := false |}.

(** The identifiers of the three nonlinearities, and the identifiers that
    are none of them. *)
Definition activation_named (name : string) (f : activation_fn) : Prop :=
  (name = "ReLU"%string /\ f = ReLU) \/
  (name = "Tanh"%string /\ f = Tanh) \/
  (name = "Sigmoid"%string /\ f = Sigmoid).

Definition unrecognized (name : string) : Prop :=
  name <> "ReLU"%string /\ name <> "Tanh"%string /\ name <> "Sigmoid"%string.

(** A run that fails before any computation: it raises with no model
    built, nothing logged, nothing written to [ex.info] and no batch
    drawn. *)
Definition fails_eagerly {T : Torch} (out : result unit * State T) : Prop :=
  (exists e, fst out = Raise e) /\
  mlp (snd out) = None /\
  debug_log (snd out) = [] /\
  info (snd out) = empty_info T /\
  history (snd out) = [].

(** What [get_batch] generates for a list of requests, described without
    the loop variables: for each request a block of [size] rows, the one-hot
    code followed by the bits read from the generator, with the parities as
    labels; a request with count zero reads nothing.  The third component is
    the generator after the last block. *)
Fixpoint generated (n_tasks n : nat) (gs : list (list nat * nat * nat)) (g : Rng)
  : list (list nat) * list nat * Rng :=
  match gs with
  | [] => ([], [], g)
  | grp :: gs' =>
      let B := bits_of g (group_size grp) n in
      let g1 := if group_size grp =? 0 then g else advance (group_size grp * n) g in
      let '(X, Y, g') := generated n_tasks n gs' g1 in
      (map (app (one_hot n_tasks (snd grp))) B ++ X,
       map (parity (fst (fst grp))) B ++ Y,
       g')
  end.

(** A request that [get_batch] can serve: it asks for no row, or its code
    is a task index and its positions are bit positions. *)
Definition request_in_range (n_tasks n : nat) (grp : list nat * nat * nat) : Prop :=
  group_size grp = 0 \/
  (snd grp < n_tasks /\ Forall (fun s => s < n) (fst (fst grp))).

(** The ranks that [zipfian_rvs] reads off generator [g]. *)
Definition ranks_of (g : Rng) (n_tasks m : nat) : list nat :=
  map (fun i => 1 + peek g i mod n_tasks) (seq 0 m).

(** The distinct elements of a list, in the order of their first
    occurrence. *)
Fixpoint first_occurrences (l : list nat) : list nat :=
  match l with
  | [] => []
  | s :: l' => s :: filter (fun c => negb (c =? s)) (first_occurrences l')
  end.

(** [d[i]] on a [defaultdict(list)], read without inserting: the list
    stored under [i], the empty list under a missing key. *)
Fixpoint dd_get {V} (i : nat) (d : list (nat * list V)) : list V :=
  match d with
  | [] => []
  | (key, l) :: d' => if key =? i then l else dd_get i d'
  end.

(** What an evaluation event has no business changing: the model and its
    optimizer, the variable [loss], the generator of [random], the debug
    log and the entries [P], [D], [Ss] and [log_steps] of [ex.info]. *)
Definition learner_view {T : Torch} (s : State T) :=
  (mlp s, loss s, py_random s, debug_log s,
   (info_P (info s), info_D (info s), info_Ss (info s), log_steps (info s))).

(** What the probe of one subtask leaves alone besides: numpy's generator,
    the history and the aggregate series. *)
Definition aggregate_view {T : Torch} (s : State T) :=
  (learner_view s, np_random s, history s, accuracies (info s), losses (info s)).

(** ** The experiment drivers

    [experiments/onetask-D-scaling-1/eval.py] and
    [experiments/P-scaling-17/eval.py] pick one point of a grid from the
    task index given on the command line and launch one training run for
    it.  The index is taken after [int(sys.argv[1])]; the launched shell
    command is kept as its script, its results directory and its settings. *)

Inductive setting_value : Type :=
| Int (z : Z)
| Dec (q : Q).

Record command : Type := {
  script : string;
  results_dir : string;
  settings : list (string * setting_value)
}.

(** [l[i]] for a Python integer: a negative index counts from the end. *)
Definition py_index {A} (l : list A) (i : Z) : result A :=
  let len := Z.of_nat (length l) in
  if (i <? 0)%Z
  then (if (i + len <? 0)%Z then Raise IndexError else list_index l (Z.to_nat (i + len)))
  else list_index l (Z.to_nat i).

(** [list(range(start, stop, step))] for a positive step. *)
Definition py_range (start stop step : Z) : list Z :=
  map (fun j => (start + Z.of_nat j * step)%Z)
    (seq 0 (Z.to_nat ((stop - start + step - 1) / step))).

(** The outcome of a driver: [time.sleep] can raise [OverflowError], which
    no operation of the training script does. *)
Inductive outcome (A : Type) : Type :=
| Launched (a : A)
| Raised (e : exn)
| RaisedOverflowError.

Arguments Launched {A} a.
Arguments Raised {A} e.
Arguments RaisedOverflowError {A}.

(** [time.sleep(secs)] for an integer: the length is first converted to
    the clock type of the platform, which raises [OverflowError] beyond
    [clock_max] seconds in either direction; then a negative length raises
    [ValueError]; otherwise the time slept is recorded. *)
Definition sleep (clock_max secs : Z) : outcome Z :=
  if (clock_max <? Z.abs secs)%Z then RaisedOverflowError
  else if (secs <? 0)%Z then Raised ValueError
  else Launched secs.

(** [list(itertools.product(a, b, c))]: the last component varies
    fastest. *)
Definition product3 {A B C} (a : list A) (b : list B) (c : list C) : list (A * B * C) :=
  flat_map (fun x => flat_map (fun y => map (fun z => (x, y, z)) c) b) a.

Module onetask_D_scaling_1.

Definition Ds : list Z := py_range 1000 20000 1000.

(** The command that [os.system] receives for a data budget [D]. *)
Definition launch (D : Z) : command :=
  {| script := "/om2/user/ericjm/the-everything-machine/scripts/sparse-parity-v2.py";
     results_dir := "/om/user/ericjm/results/the-everything-machine/onetask-D-scaling-1";
     settings := [("alpha", Dec (14 # 10)%Q); ("D", Int D);
                  ("batch_size", Int 10000); ("width", Int 500);
                  ("depth", Int 2); ("k", Int 2); ("n", Int 200);
                  ("n_tasks", Int 1); ("steps", Int 20000);
                  ("log_freq", Int 50); ("test_points", Int 5000);
                  ("seed", Int 0)]%string |}.

(** The body of [if __name__ == '__main__']: the time slept and the
    command launched. *)
Definition main (clock_max task_idx : Z) : outcome (Z * command) :=
  match sleep clock_max (task_idx * 5) with
  | RaisedOverflowError => RaisedOverflowError
  | Raised e => Raised e
  | Launched slept =>
      match py_index Ds task_idx with
      | Raise e => Raised e
      | Ok D => Launched (slept, launch D)
      end
  end.

End onetask_D_scaling_1.

Module P_scaling_17.

Definition alphas : list Q :=
  [(11 # 10)%Q; (12 # 10)%Q; (13 # 10)%Q; (14 # 10)%Q;
   (15 # 10)%Q; (16 # 10)%Q; (17 # 10)%Q; (18 # 10)%Q].

Definition seeds : list Z := [0; 1; 2]%Z.

(** [widths] is computed in floating point ([np.power], [np.linspace]) and
    truncated; the grid is modelled for an arbitrary list of widths. *)
Definition configs (widths : list Z) : list (Z * Q * Z) := product3 widths alphas seeds.

(** The command that [os.system] receives for one grid point. *)
Definition launch (width : Z) (alpha : Q) (seed : Z) : command :=
  {| script := "/om2/user/ericjm/the-everything-machine/scripts/sparse-parity-v4.py";
     results_dir := "/om/user/ericjm/results/the-everything-machine/P-scaling-17";
     settings := [("alpha", Dec alpha); ("offset", Int 0); ("D", Int (-1));
                  ("batch_size", Int 20000); ("width", Int width);
                  ("depth", Int 2); ("k", Int 3); ("n", Int 100);
                  ("steps", Int 100000); ("n_tasks", Int 500);
                  ("log_freq", Int 500); ("test_points", Int 1000000);
                  ("test_points_per_task", Int 1000); ("seed", Int seed)]%string |}.

(** The body of [if __name__ == '__main__']; the call to [time.sleep] is
    commented out in this driver. *)
Definition main (widths : list Z) (task_idx : Z) : result command :=
  match py_index (configs widths) task_idx with
  | Raise e => Raise e
  | Ok (width, alpha, seed) => Ok (launch width alpha seed)
  end.

End P_scaling_17.

(** ** Tactics *)

(** Closes the side conditions on concrete lists: ranges, distinctness,
    lengths. *)
Ltac discharge_lists :=
  repeat match goal with
         | |- _ /\ _ => split
         | |- Forall _ _ => constructor
         | |- NoDup _ => constructor
         | |- ~ In _ _ => simpl; intuition discriminate
         | |- _ < _ => simpl; lia
         | |- _ <= _ => simpl; lia
         | |- @eq nat _ _ => reflexivity
         end.

(** Case analysis on the computation at the head of a sequence of binds. *)
Ltac split_head :=
  match goal with
  | |- context [match ?x with _ => _ end] =>
      match x with
      | context [match _ with _ => _ end] => fail 1
      | _ => destruct x eqn:?
      end
  end.

(** ** Lists *)

Lemma skipn_repeat {A} (a : A) (m r : nat) : skipn m (repeat a r) = repeat a (r - m).
Proof.
  revert m; induction r as [|r IH]; intros [|m]; simpl; auto.
Qed.

Lemma combine_app_eq {A B} (l1 l2 : list A) (m1 m2 : list B) :
  length l1 = length m1 ->
  combine (l1 ++ l2) (m1 ++ m2) = combine l1 m1 ++ combine l2 m2.
Proof.
  revert m1; induction l1 as [|a l1 IH]; intros [|b m1] H; simpl in *; try discriminate; auto.
  f_equal; apply IH; lia.
Qed.

Lemma set_nth_length j v row : length (set_nth j v row) = length row.
Proof.
  revert j; induction row as [|h t IH]; intros [|j]; simpl; auto.
Qed.

Lemma nth_set_nth_same j v row : j < length row -> nth j (set_nth j v row) 0 = v.
Proof.
  revert j; induction row as [|h t IH]; intros [|j] H; simpl in *; try lia; auto.
  apply IH; lia.
Qed.

Lemma nth_set_nth_other j i v row : i <> j -> nth i (set_nth j v row) 0 = nth i row 0.
Proof.
  revert j i; induction row as [|h t IH]; intros [|j] [|i] H; simpl; auto; try congruence.
Qed.

(** ** The tensor operations *)

Lemma bits_of_length g size n : length (bits_of g size n) = size.
Proof. unfold bits_of; now rewrite length_map, length_seq. Qed.

Lemma bits_of_rows g size n :
  Forall (fun bits => length bits = n /\ Forall (fun b => b < 2) bits) (bits_of g size n).
Proof.
  unfold bits_of; apply Forall_forall; intros row Hin.
  apply in_map_iff in Hin as (i & <- & _); split.
  - now rewrite length_map, length_seq.
  - apply Forall_forall; intros b Hb.
    apply in_map_iff in Hb as (j & <- & _).
    apply Nat.mod_upper_bound; lia.
Qed.

Lemma cat1_one_hot n_tasks code x :
  cat1 (map (set_nth code 1) (zeros2 (length x) n_tasks)) x
  = map (app (one_hot n_tasks code)) x.
Proof.
  unfold zeros2; induction x as [|row x IH]; simpl; auto.
  now rewrite IH.
Qed.

Lemma sum_mod2_index_columns n x S_ xS :
  index_columns n x S_ = Ok xS -> sum_mod2 xS = map (parity S_) x.
Proof.
  unfold index_columns; destruct (forallb _ S_); intros H; inversion H; subst.
  unfold sum_mod2; rewrite map_map; reflexivity.
Qed.

Lemma assign_rows_fresh {A} (X src : list A) (z : A) (lo m r : nat) :
  lo = length X -> length src = m -> m <= r ->
  assign_rows lo (lo + m) src (X ++ repeat z r) = Ok ((X ++ src) ++ repeat z (r - m)).
Proof.
  intros -> <- H; unfold assign_rows.
  rewrite length_app, repeat_length.
  replace (length X + length src <=? length X + r) with true
    by (symmetry; apply Nat.leb_le; lia).
  rewrite firstn_app, firstn_all, Nat.sub_diag, firstn_O, app_nil_r.
  rewrite skipn_app, skipn_all2 by lia.
  replace (length X + length src - length X) with (length src) by lia.
  now rewrite skipn_repeat, <- app_assoc.
Qed.

(** ** The loop of [get_batch] *)

Lemma randint_eq size n g : randint size n g = (Ok (bits_of g size n), advance (size * n) g).
Proof. reflexivity. Qed.

Lemma block_rows_ok n_tasks n S_ code B :
  Forall (fun bits => length bits = n /\ Forall (fun b => b < 2) bits) B ->
  Forall2 (row_ok n_tasks n) (repeat (S_, code) (length B))
    (combine (map (app (one_hot n_tasks code)) B) (map (parity S_) B)).
Proof.
  induction 1 as [|bits B [Hlen Hbits] _ IH]; simpl; constructor; auto.
  exists bits; simpl; auto.
Qed.

(** A request in range is served: its rows are written after the rows
    already there, and as many zero rows are used up. *)
Lemma get_batch_step_ok n_tasks n grp X Y r g :
  group_ok n_tasks n grp = true ->
  length X = length Y ->
  group_size grp <= r ->
  exists X' Y' g',
    get_batch_step n_tasks n (acc_of (n_tasks + n) X Y r) grp g
    = (Ok (acc_of (n_tasks + n) (X ++ X') (Y ++ Y') (r - group_size grp)), g') /\
    length X' = group_size grp /\ length Y' = group_size grp /\
    Forall2 (row_ok n_tasks n) (rows_of [grp]) (combine X' Y').
Proof.
  destruct grp as [[S_ size] code]; unfold group_ok, group_size, rows_of.
  cbn [fst snd flat_map]; intros Hok HXY Hr; rewrite app_nil_r.
  destruct size as [|size'].
  - exists [], [], g; simpl; rewrite !app_nil_r, Nat.sub_0_r; repeat split; constructor.
  - set (size := S size') in *.
    simpl in Hok; apply andb_prop in Hok as [HS Hcode].
    pose proof (bits_of_length g size n) as HB.
    pose proof (bits_of_rows g size n) as Hrows.
    exists (map (app (one_hot n_tasks code)) (bits_of g size n)),
           (map (parity S_) (bits_of g size n)), (advance (size * n) g).
    rewrite !length_map; repeat split; auto.
    + unfold get_batch_step.
      change (0 <? size) with true; cbv iota.
      unfold bind, lift, ret; cbv beta; rewrite randint_eq.
      set (B := bits_of g size n) in *.
      unfold index_columns, set_column; rewrite HS, Hcode.
      replace (sum_mod2 (map (fun row => map (fun s => nth s row 0) S_) B))
        with (map (parity S_) B)
        by (unfold sum_mod2; rewrite map_map; reflexivity).
      replace (cat1 (map (set_nth code 1) (zeros2 size n_tasks)) B)
        with (map (app (one_hot n_tasks code)) B)
        by (rewrite <- HB; symmetry; apply cat1_one_hot).
      set (XB := map (app (one_hot n_tasks code)) B).
      set (YB := map (parity S_) B).
      assert (HXB : length XB = size) by (unfold XB; now rewrite length_map).
      assert (HYB : length YB = size) by (unfold YB; now rewrite length_map).
      unfold acc_of, zeros2, zeros1; cbn [batch_x batch_y start_i].
      rewrite (@assign_rows_fresh _ X XB) by (auto; lia).
      rewrite (@assign_rows_fresh _ Y YB) by (auto; lia).
      rewrite length_app, HXB; reflexivity.
    + rewrite <- HB at 1; now apply block_rows_ok.
Qed.

Lemma rows_of_cons grp gs : rows_of (grp :: gs) = rows_of [grp] ++ rows_of gs.
Proof. unfold rows_of; simpl; now rewrite app_nil_r. Qed.

(** Invariant of the loop: the rows written so far are those of the
    requests served so far, in order, and the slice written next lies
    inside the batch. *)
Lemma get_batch_loop_inv n_tasks n gs : forall X Y r g,
  forallb (group_ok n_tasks n) gs = true ->
  length X = length Y ->
  list_sum (map group_size gs) <= r ->
  exists X' Y' g',
    foldM (get_batch_step n_tasks n) gs (acc_of (n_tasks + n) X Y r) g
    = (Ok (acc_of (n_tasks + n) (X ++ X') (Y ++ Y')
             (r - list_sum (map group_size gs))), g') /\
    length X' = list_sum (map group_size gs) /\
    length Y' = length X' /\
    Forall2 (row_ok n_tasks n) (rows_of gs) (combine X' Y').
Proof.
  induction gs as [|grp gs IH]; intros X Y r g Hok HXY Hr.
  - exists [], [], g; simpl; rewrite !app_nil_r, Nat.sub_0_r.
    repeat split; constructor.
  - simpl in Hok, Hr; apply andb_prop in Hok as [Hgrp Hgs].
    destruct (@get_batch_step_ok n_tasks n grp X Y r g Hgrp HXY)
      as (X1 & Y1 & g1 & E1 & HX1 & HY1 & R1); [lia|].
    destruct (IH (X ++ X1) (Y ++ Y1) (r - group_size grp) g1 Hgs)
      as (X2 & Y2 & g2 & E2 & HX2 & HY2 & R2);
      [rewrite !length_app; lia | lia |].
    exists (X1 ++ X2), (Y1 ++ Y2), g2; repeat split.
    + cbn [foldM]; unfold bind at 1; rewrite E1, E2.
      cbn [map list_sum fold_right]; rewrite !app_assoc, Nat.sub_add_distr; reflexivity.
    + rewrite length_app; simpl; lia.
    + rewrite !length_app; lia.
    + rewrite rows_of_cons, combine_app_eq by lia.
      now apply Forall2_app.
Qed.

(** A request out of range raises [IndexError]. *)
Lemma get_batch_step_fail n_tasks n grp acc g :
  group_ok n_tasks n grp = false ->
  exists g', get_batch_step n_tasks n acc grp g = (Raise IndexError, g').
Proof.
  destruct grp as [[S_ size] code]; unfold group_ok, group_size; cbn [fst snd].
  intros Hok; apply orb_false_elim in Hok as [Hsize Hrange].
  unfold get_batch_step.
  replace (0 <? size) with true
    by (symmetry; apply Nat.ltb_lt; apply Nat.eqb_neq in Hsize; lia).
  unfold bind, lift; cbv beta; rewrite randint_eq.
  unfold index_columns, set_column.
  destruct (forallb (fun s => s <? n) S_); simpl in Hrange.
  - rewrite Hrange; eauto.
  - eauto.
Qed.

Lemma zip3_ok n_tasks n Ss : forall sizes codes,
  Forall (Forall (fun s => s < n)) Ss ->
  Forall (fun c => c < n_tasks) codes ->
  forallb (group_ok n_tasks n) (zip3 Ss sizes codes) = true.
Proof.
  unfold zip3; induction Ss as [|S_ Ss IH]; intros [|size sizes] [|code codes] HS Hc;
    simpl; auto.
  inversion HS; inversion Hc; subst.
  rewrite IH by assumption; rewrite andb_true_r.
  unfold group_ok; cbn [fst snd].
  apply orb_true_iff; right; apply andb_true_iff; split.
  - apply forallb_forall; intros s Hs; apply Nat.ltb_lt.
    match goal with H : Forall _ S_ |- _ => rewrite Forall_forall in H; auto end.
  - now apply Nat.ltb_lt.
Qed.

Lemma zip3_sizes_le (Ss : list (list nat)) : forall sizes (codes : list nat),
  list_sum (map group_size (zip3 Ss sizes codes)) <= list_sum sizes.
Proof.
  unfold zip3, group_size; induction Ss as [|S_ Ss IH]; intros [|size sizes] [|code codes];
    simpl; try lia.
  specialize (IH sizes codes); lia.
Qed.

Lemma zip3_sizes_eq (Ss : list (list nat)) : forall sizes (codes : list nat),
  length Ss = length sizes -> length codes = length sizes ->
  list_sum (map group_size (zip3 Ss sizes codes)) = list_sum sizes.
Proof.
  unfold zip3, group_size; induction Ss as [|S_ Ss IH];
    intros [|size sizes] [|code codes] H1 H2; simpl in *; try lia.
  rewrite IH; lia.
Qed.

(** The batch returned for requests in range: the generated rows followed
    by the rows that no request has written, which stay zero. *)
Lemma get_batch_ok n_tasks n Ss codes sizes g :
  Forall (Forall (fun s => s < n)) Ss ->
  Forall (fun c => c < n_tasks) codes ->
  exists X Y g',
    get_batch n_tasks n Ss codes sizes g
    = (Ok (X ++ zeros2 (list_sum sizes - length X) (n_tasks + n),
           Y ++ zeros1 (list_sum sizes - length X)), g') /\
    length X = list_sum (map group_size (zip3 Ss sizes codes)) /\
    length Y = length X /\
    Forall2 (row_ok n_tasks n) (rows_of (zip3 Ss sizes codes)) (combine X Y).
Proof.
  intros HS Hc.
  destruct (@get_batch_loop_inv n_tasks n (zip3 Ss sizes codes) [] [] (list_sum sizes) g)
    as (X & Y & g' & E & HX & HY & R).
  - now apply zip3_ok.
  - reflexivity.
  - apply zip3_sizes_le.
  - exists X, Y, g'; repeat split; auto.
    unfold get_batch, bind, ret.
    change {| batch_x := zeros2 (list_sum sizes) (n_tasks + n);
              batch_y := zeros1 (list_sum sizes); start_i := 0 |}
      with (acc_of (n_tasks + n) [] [] (list_sum sizes)).
    rewrite E; unfold acc_of; cbn [batch_x batch_y app]; rewrite HX; reflexivity.
Qed.

(** A call with a request out of range raises [IndexError], whatever the
    requests before it. *)
Lemma get_batch_loop_fail n_tasks n gs : forall X Y r g,
  forallb (group_ok n_tasks n) gs = false ->
  length X = length Y ->
  list_sum (map group_size gs) <= r ->
  exists g',
    foldM (get_batch_step n_tasks n) gs (acc_of (n_tasks + n) X Y r) g
    = (Raise IndexError, g').
Proof.
  induction gs as [|grp gs IH]; intros X Y r g Hbad HXY Hr; [discriminate|].
  simpl in Hbad, Hr; cbn [foldM]; unfold bind at 1.
  destruct (group_ok n_tasks n grp) eqn:Hgrp.
  - destruct (@get_batch_step_ok n_tasks n grp X Y r g Hgrp HXY)
      as (X1 & Y1 & g1 & E1 & HX1 & HY1 & _); [lia|].
    rewrite E1; apply IH; [assumption | rewrite !length_app; lia | lia].
  - destruct (@get_batch_step_fail n_tasks n grp (acc_of (n_tasks + n) X Y r) g Hgrp)
      as (g' & E); rewrite E; eauto.
Qed.

Lemma get_batch_fail n_tasks n Ss codes sizes g :
  forallb (group_ok n_tasks n) (zip3 Ss sizes codes) = false ->
  exists g', get_batch n_tasks n Ss codes sizes g = (Raise IndexError, g').
Proof.
  intros Hbad.
  destruct (@get_batch_loop_fail n_tasks n (zip3 Ss sizes codes) [] []
              (list_sum sizes) g Hbad eq_refl (zip3_sizes_le Ss sizes codes))
    as (g' & E).
  exists g'; unfold get_batch, bind.
  change {| batch_x := zeros2 (list_sum sizes) (n_tasks + n);
            batch_y := zeros1 (list_sum sizes); start_i := 0 |}
    with (acc_of (n_tasks + n) [] [] (list_sum sizes)).
  now rewrite E.
Qed.

(** ** Rows of a batch *)

Lemma Forall2_nth_error_l {A B} (R : A -> B -> Prop) l m :
  Forall2 R l m ->
  forall r a, nth_error l r = Some a -> exists b, nth_error m r = Some b /\ R a b.
Proof.
  induction 1 as [|a0 b0 l m H0 _ IH]; intros [|r] a E; simpl in *; try discriminate.
  - inversion E; subst; eauto.
  - eauto.
Qed.

Lemma Forall2_nth_error_r {A B} (R : A -> B -> Prop) l m :
  Forall2 R l m ->
  forall r b, nth_error m r = Some b -> exists a, nth_error l r = Some a /\ R a b.
Proof.
  induction 1 as [|a0 b0 l m H0 _ IH]; intros [|r] b E; simpl in *; try discriminate.
  - inversion E; subst; eauto.
  - eauto.
Qed.

Lemma nth_error_combine {A B} (X : list A) : forall (Y : list B) r p,
  nth_error (combine X Y) r = Some p ->
  nth_error X r = Some (fst p) /\ nth_error Y r = Some (snd p).
Proof.
  induction X as [|x X IH]; intros [|y Y] [|r] p E; simpl in *; try discriminate.
  - inversion E; subst; auto.
  - eauto.
Qed.

Lemma nth_error_combine_l {A B} (X : list A) : forall (Y : list B) r a,
  length Y = length X -> nth_error X r = Some a ->
  exists b, nth_error (combine X Y) r = Some (a, b).
Proof.
  induction X as [|x X IH]; intros [|y Y] [|r] a HL E; simpl in *; try discriminate.
  - inversion E; subst; eauto.
  - apply IH; auto.
Qed.

(** ** The one-hot channel *)

Lemma one_hot_length n_tasks code : length (one_hot n_tasks code) = n_tasks.
Proof. unfold one_hot; now rewrite set_nth_length, repeat_length. Qed.

Lemma count_occ_repeat_zero m v :
  count_occ Nat.eq_dec (repeat 0 m) v = if v =? 0 then m else 0.
Proof.
  induction m as [|m IH]; simpl.
  - now destruct (v =? 0).
  - destruct (Nat.eq_dec 0 v) as [<-|Hv]; rewrite IH.
    + reflexivity.
    + destruct v; [congruence | reflexivity].
Qed.

Lemma one_hot_counts n_tasks : forall code,
  code < n_tasks ->
  count_occ Nat.eq_dec (one_hot n_tasks code) 1 = 1 /\
  count_occ Nat.eq_dec (one_hot n_tasks code) 0 = n_tasks - 1.
Proof.
  unfold one_hot; induction n_tasks as [|m IH]; intros [|code] H; try lia; simpl.
  - rewrite !count_occ_repeat_zero; simpl; split; lia.
  - destruct (IH code) as [I1 I0]; [lia|].
    rewrite I1, I0; split; lia.
Qed.

Lemma one_hot_position n_tasks code j :
  code < n_tasks -> (nth j (one_hot n_tasks code) 0 = 1 <-> j = code).
Proof.
  intros H; unfold one_hot; split.
  - intros E; destruct (Nat.eq_dec j code) as [|Hne]; auto.
    rewrite nth_set_nth_other in E by auto.
    destruct (Nat.lt_ge_cases j n_tasks).
    + rewrite nth_repeat_lt in E by auto; discriminate.
    + rewrite nth_overflow in E by (rewrite repeat_length; lia); discriminate.
  - intros ->; apply nth_set_nth_same; now rewrite repeat_length.
Qed.

Lemma row_ok_channel n_tasks n req row y :
  row_ok n_tasks n req (row, y) ->
  firstn n_tasks row = one_hot n_tasks (snd req) /\ length row = n_tasks + n.
Proof.
  intros (bits & E & Hlen & _ & _); simpl in E; subst row; split.
  - rewrite firstn_app, one_hot_length, Nat.sub_diag, firstn_O, app_nil_r.
    apply firstn_all2; rewrite one_hot_length; lia.
  - rewrite length_app, one_hot_length; lia.
Qed.

Lemma row_ok_bits n_tasks n req row y :
  row_ok n_tasks n req (row, y) ->
  length (skipn n_tasks row) = n /\
  Forall (fun b => b < 2) (skipn n_tasks row) /\
  y = parity (fst req) (skipn n_tasks row).
Proof.
  intros (bits & E & Hlen & Hbits & Hy); simpl in E, Hy; subst row.
  rewrite skipn_app, one_hot_length, Nat.sub_diag, skipn_O.
  rewrite skipn_all2 by (rewrite one_hot_length; lia); simpl; auto.
Qed.

(** ** Parity under a bit flip *)

Lemma selected_sum_flip_outside j bits S_ :
  ~ In j S_ ->
  map (fun s => nth s (flip j bits) 0) S_ = map (fun s => nth s bits 0) S_.
Proof.
  intros Hj; apply map_ext_in; intros s Hs.
  unfold flip; apply nth_set_nth_other; intros ->; contradiction.
Qed.

Lemma selected_sum_flip_inside j bits : forall S_,
  NoDup S_ -> In j S_ -> j < length bits ->
  list_sum (map (fun s => nth s (flip j bits) 0) S_) + nth j bits 0
  = list_sum (map (fun s => nth s bits 0) S_) + (1 - nth j bits 0).
Proof.
  unfold list_sum.
  induction S_ as [|s S_ IH]; intros Hnd Hin Hlen; [contradiction|].
  inversion Hnd as [|? ? Hnotin Hnd']; subst; cbn [map fold_right].
  destruct (Nat.eq_dec s j) as [->|Hne].
  - rewrite selected_sum_flip_outside by assumption.
    unfold flip at 1; rewrite nth_set_nth_same by assumption; lia.
  - destruct Hin as [|Hin]; [congruence|].
    specialize (IH Hnd' Hin Hlen).
    unfold flip at 1; rewrite nth_set_nth_other by assumption; lia.
Qed.

Lemma parity_flip_selected S_ bits j :
  NoDup S_ -> In j S_ -> j < length bits -> Forall (fun b => b < 2) bits ->
  parity S_ (flip j bits) = 1 - parity S_ bits.
Proof.
  intros Hnd Hin Hlen Hbits.
  pose proof (@selected_sum_flip_inside j bits S_ Hnd Hin Hlen) as E.
  assert (Hb : nth j bits 0 < 2)
    by (rewrite Forall_forall in Hbits; apply Hbits, nth_In; assumption).
  unfold parity.
  set (a := list_sum (map (fun s => nth s (flip j bits) 0) S_)) in *.
  set (b := list_sum (map (fun s => nth s bits 0) S_)) in *.
  pose proof (Nat.div_mod_eq a 2); pose proof (Nat.div_mod_eq b 2).
  pose proof (Nat.mod_upper_bound a 2); pose proof (Nat.mod_upper_bound b 2).
  lia.
Qed.

Lemma parity_flip_unselected S_ bits j :
  ~ In j S_ -> parity S_ (flip j bits) = parity S_ bits.
Proof.
  intros Hj; unfold parity; now rewrite selected_sum_flip_outside.
Qed.

Lemma rows_of_zip3_subtask Ss sizes codes r S_ code :
  nth_error (rows_of (zip3 Ss sizes codes)) r = Some (S_, code) -> In S_ Ss.
Proof.
  intros E; apply nth_error_In in E.
  unfold rows_of in E; apply in_flat_map in E as (grp & Hgrp & Hrep).
  destruct grp as [[S0 size] code0]; cbn [fst snd] in Hrep.
  apply repeat_spec in Hrep; inversion Hrep; subst.
  unfold zip3 in Hgrp.
  apply in_combine_l in Hgrp; now apply in_combine_l in Hgrp.
Qed.

Lemma rows_of_length gs : length (rows_of gs) = list_sum (map group_size gs).
Proof.
  unfold rows_of; induction gs as [|grp gs IH]; simpl; auto.
  now rewrite length_app, repeat_length, IH.
Qed.

(** ** The Batch Synthesizer *)

(** [C7] For every list of requests whose subtasks and codes are in range,
    whatever the counts, [get_batch] returns an input tensor and a label
    tensor with exactly [sum(sizes)] rows, each input row having
    [n_tasks + n] entries; when every count is zero both are empty. *)
Theorem batch_size_conservation n_tasks n Ss codes sizes g :
  Forall (Forall (fun s => s < n)) Ss ->
  Forall (fun c => c < n_tasks) codes ->
  exists batch_x batch_y g',
    get_batch n_tasks n Ss codes sizes g = (Ok (batch_x, batch_y), g') /\
    length batch_x = list_sum sizes /\
    length batch_y = list_sum sizes /\
    (Forall (fun size => size = 0) sizes -> batch_x = [] /\ batch_y = []).
Proof.
  intros HS Hc.
  destruct (@get_batch_ok n_tasks n Ss codes sizes g HS Hc) as (X & Y & g' & E & HX & HY & _).
  pose proof (zip3_sizes_le Ss sizes codes) as Hle.
  assert (Lx : length (X ++ zeros2 (list_sum sizes - length X) (n_tasks + n)) = list_sum sizes)
    by (unfold zeros2; rewrite length_app, repeat_length; lia).
  assert (Ly : length (Y ++ zeros1 (list_sum sizes - length X)) = list_sum sizes)
    by (unfold zeros1; rewrite length_app, repeat_length; lia).
  eexists _, _, g'; split; [exact E|]; split; [exact Lx|]; split; [exact Ly|].
  intros Hzero.
  assert (Z : list_sum sizes = 0).
  { clear - Hzero; induction Hzero as [|size sizes -> _ IH]; simpl; auto. }
  split; apply length_zero_iff_nil; congruence.
Qed.

Lemma batch_size_conservation_witness :
  exists batch_x batch_y g',
    get_batch 3 4 [[0; 2]; [1; 3]; [3]] [2; 0; 1] [2; 0; 1]
      {| tape := fun i => i * i / 3; pos := 0 |} = (Ok (batch_x, batch_y), g') /\
    length batch_x = 3 /\ length batch_y = 3 /\
    (Forall (fun size => size = 0) [2; 0; 1] -> batch_x = [] /\ batch_y = []).
Proof.
  apply (@batch_size_conservation 3 4 [[0; 2]; [1; 3]; [3]] [2; 0; 1] [2; 0; 1]);
    discharge_lists.
Defined.

(** [C6] For requests given as aligned lists (one subtask, one code and
    one count per request) with codes in [0, n_tasks), [get_batch] returns a
    batch in which every row has, in its first [n_tasks] entries, exactly
    one 1 and [n_tasks - 1] zeros, the 1 standing at the code of the request
    that generated the row and nowhere else. *)
Theorem task_channel_is_one_hot n_tasks n Ss codes sizes g :
  length Ss = length sizes ->
  length codes = length sizes ->
  Forall (Forall (fun s => s < n)) Ss ->
  Forall (fun c => c < n_tasks) codes ->
  exists batch_x batch_y g',
    get_batch n_tasks n Ss codes sizes g = (Ok (batch_x, batch_y), g') /\
    forall r row,
      nth_error batch_x r = Some row ->
      exists S_ code,
        nth_error (rows_of (zip3 Ss sizes codes)) r = Some (S_, code) /\
        code < n_tasks /\
        count_occ Nat.eq_dec (firstn n_tasks row) 1 = 1 /\
        count_occ Nat.eq_dec (firstn n_tasks row) 0 = n_tasks - 1 /\
        (forall j, nth j (firstn n_tasks row) 0 = 1 <-> j = code).
Proof.
  intros HL1 HL2 HS Hc.
  destruct (@get_batch_ok n_tasks n Ss codes sizes g HS Hc) as (X & Y & g' & E & HX & HY & R).
  pose proof (@zip3_sizes_eq Ss sizes codes HL1 HL2) as Hsum.
  rewrite Hsum in HX.
  rewrite HX, Nat.sub_diag in E; unfold zeros2, zeros1 in E; simpl in E.
  rewrite !app_nil_r in E.
  exists X, Y, g'; split; [exact E|].
  intros r row Hrow.
  destruct (nth_error_combine_l X Y r HY Hrow) as (y & Hxy).
  destruct (Forall2_nth_error_r R r Hxy) as ([S_ code] & Hreq & Hok).
  assert (Hcode : code < n_tasks).
  { apply nth_error_In in Hreq.
    unfold rows_of in Hreq; apply in_flat_map in Hreq as (grp & Hgrp & Hrep).
    destruct grp as [[S0 size0] code0]; cbn [fst snd] in Hrep.
    apply repeat_spec in Hrep; inversion Hrep; subst.
    unfold zip3 in Hgrp; apply in_combine_r in Hgrp.
    rewrite Forall_forall in Hc; auto. }
  destruct (row_ok_channel Hok) as [Hch _]; cbn [snd] in Hch.
  destruct (one_hot_counts Hcode) as [C1 C0].
  exists S_, code; rewrite Hch; repeat split; auto;
    now apply one_hot_position.
Qed.

Lemma task_channel_is_one_hot_witness :
  exists batch_x batch_y g',
    get_batch 3 4 [[0; 2]; [1; 3]; [3]] [2; 0; 1] [2; 0; 1]
      {| tape := fun i => i * i / 3; pos := 0 |} = (Ok (batch_x, batch_y), g') /\
    forall r row,
      nth_error batch_x r = Some row ->
      exists S_ code,
        nth_error (rows_of (zip3 [[0; 2]; [1; 3]; [3]] [2; 0; 1] [2; 0; 1])) r
        = Some (S_, code) /\
        code < 3 /\
        count_occ Nat.eq_dec (firstn 3 row) 1 = 1 /\
        count_occ Nat.eq_dec (firstn 3 row) 0 = 3 - 1 /\
        (forall j, nth j (firstn 3 row) 0 = 1 <-> j = code).
Proof.
  apply (@task_channel_is_one_hot 3 4 [[0; 2]; [1; 3]; [3]] [2; 0; 1] [2; 0; 1]);
    discharge_lists.
Defined.

(** [C5] For every example that [get_batch] generates for a subtask whose
    selected positions are pairwise distinct and lie in [0, n), the label
    is the sum modulo 2 of the bits at the selected positions; flipping any
    one selected bit flips the label, and flipping any other bit leaves it
    unchanged. *)
Theorem label_is_parity_of_selected_bits n_tasks n Ss codes sizes g :
  Forall (fun S_ => NoDup S_ /\ Forall (fun s => s < n) S_) Ss ->
  Forall (fun c => c < n_tasks) codes ->
  exists batch_x batch_y g',
    get_batch n_tasks n Ss codes sizes g = (Ok (batch_x, batch_y), g') /\
    forall r S_ code,
      nth_error (rows_of (zip3 Ss sizes codes)) r = Some (S_, code) ->
      exists row y,
        nth_error batch_x r = Some row /\
        nth_error batch_y r = Some y /\
        y < 2 /\
        y = parity S_ (skipn n_tasks row) /\
        (forall j, In j S_ -> parity S_ (flip j (skipn n_tasks row)) = 1 - y) /\
        (forall j, ~ In j S_ -> parity S_ (flip j (skipn n_tasks row)) = y).
Proof.
  intros HS Hc.
  assert (HS' : Forall (Forall (fun s => s < n)) Ss)
    by (eapply Forall_impl; [|exact HS]; intros ? [_ ?]; assumption).
  destruct (@get_batch_ok n_tasks n Ss codes sizes g HS' Hc) as (X & Y & g' & E & HX & HY & R).
  eexists _, _, g'; split; [exact E|].
  intros r S_ code Hreq.
  destruct (Forall2_nth_error_l R r Hreq) as ([row y] & Hxy & Hok).
  apply nth_error_combine in Hxy as [Hrow Hy]; cbn [fst snd] in Hrow, Hy.
  destruct (row_ok_bits Hok) as (Hlen & Hbits & Hpar); cbn [fst] in Hpar.
  apply rows_of_zip3_subtask in Hreq.
  rewrite Forall_forall in HS; destruct (HS S_ Hreq) as [Hnd Hrange].
  exists row, y; repeat split.
  - rewrite nth_error_app1; auto.
    apply nth_error_Some; congruence.
  - rewrite nth_error_app1; auto.
    apply nth_error_Some; congruence.
  - rewrite Hpar; apply Nat.mod_upper_bound; lia.
  - exact Hpar.
  - intros j Hj; rewrite Hpar; apply parity_flip_selected; auto.
    rewrite Hlen; rewrite Forall_forall in Hrange; auto.
  - intros j Hj; rewrite Hpar; now apply parity_flip_unselected.
Qed.

Lemma label_is_parity_of_selected_bits_witness :
  exists batch_x batch_y g',
    get_batch 3 4 [[0; 2]; [1; 3]; [3]] [2; 0; 1] [2; 0; 1]
      {| tape := fun i => i * i / 3; pos := 0 |} = (Ok (batch_x, batch_y), g') /\
    forall r S_ code,
      nth_error (rows_of (zip3 [[0; 2]; [1; 3]; [3]] [2; 0; 1] [2; 0; 1])) r
      = Some (S_, code) ->
      exists row y,
        nth_error batch_x r = Some row /\
        nth_error batch_y r = Some y /\
        y < 2 /\
        y = parity S_ (skipn 3 row) /\
        (forall j, In j S_ -> parity S_ (flip j (skipn 3 row)) = 1 - y) /\
        (forall j, ~ In j S_ -> parity S_ (flip j (skipn 3 row)) = y).
Proof.
  apply (@label_is_parity_of_selected_bits 3 4 [[0; 2]; [1; 3]; [3]] [2; 0; 1] [2; 0; 1]);
    discharge_lists.
Defined.

(** ** Subtask creation *)

Lemma remove_nth_incl {A} (pool : list A) : forall j x, In x (remove_nth j pool) -> In x pool.
Proof.
  induction pool as [|h t IH]; intros [|j] x H; simpl in *; auto.
  destruct H; eauto.
Qed.

Lemma remove_nth_length {A} (pool : list A) : forall j,
  j < length pool -> length (remove_nth j pool) = length pool - 1.
Proof.
  induction pool as [|h t IH]; intros [|j] H; simpl in *; try lia.
  rewrite IH by lia; lia.
Qed.

Lemma remove_nth_NoDup (pool : list nat) : forall j,
  NoDup pool -> j < length pool ->
  NoDup (remove_nth j pool) /\ ~ In (nth j pool 0) (remove_nth j pool).
Proof.
  induction pool as [|h t IH]; intros [|j] Hnd H; simpl in *; try lia;
    inversion Hnd as [|? ? Hh Ht]; subst.
  - auto.
  - destruct (IH j Ht) as [I1 I2]; [lia|]; split.
    + constructor; auto; intros Hin; apply Hh; eapply remove_nth_incl; eauto.
    + intros [E|Hin]; [|contradiction].
      apply Hh; rewrite E; apply nth_In; lia.
Qed.

(** The selection returns [k] pairwise distinct elements of the pool. *)
Lemma sample_pool_ok k : forall pool g,
  k <= length pool -> NoDup pool ->
  exists S_ g',
    sample_pool k pool g = (Ok S_, g') /\
    length S_ = k /\ NoDup S_ /\ incl S_ pool.
Proof.
  induction k as [|k IH]; intros pool g Hk Hnd.
  - exists [], g; repeat split; try constructor; intros x [].
  - set (j := peek g 0 mod length pool).
    assert (Hj : j < length pool) by (apply Nat.mod_upper_bound; lia).
    destruct (remove_nth_NoDup Hnd Hj) as [Hnd' Hnotin].
    destruct (IH (remove_nth j pool) (advance 1 g)) as (S' & g' & E & HL & HN & HI);
      [rewrite remove_nth_length by assumption; lia | assumption |].
    exists (nth j pool 0 :: S'), g'; repeat split.
    + cbn [sample_pool]; unfold bind, next, ret; cbv beta iota.
      fold j; rewrite E; reflexivity.
    + simpl; lia.
    + constructor; auto.
    + intros x [<-|Hx]; [now apply nth_In|].
      eapply remove_nth_incl; eauto.
Qed.

Lemma random_sample_ok n k g :
  k <= n ->
  exists S_ g',
    random_sample n k g = (Ok S_, g') /\
    length S_ = k /\ NoDup S_ /\ Forall (fun s => s < n) S_.
Proof.
  intros Hk; unfold random_sample.
  replace (n <? k) with false by (symmetry; apply Nat.ltb_ge; lia).
  destruct (@sample_pool_ok k (seq 0 n) g) as (S_ & g' & E & HL & HN & HI);
    [rewrite length_seq; lia | apply seq_NoDup |].
  exists S_, g'; repeat split; auto.
  apply Forall_forall; intros s Hs; apply HI, in_seq in Hs; lia.
Qed.

Lemma random_sample_fail n k g :
  n < k -> random_sample n k g = (Raise ValueError, g).
Proof.
  intros H; unfold random_sample.
  now replace (n <? k) with true by (symmetry; apply Nat.ltb_lt; lia).
Qed.

(** The Subtask Set: [n_tasks] entries, each of [k] pairwise distinct
    positions below [n]. *)
Lemma make_Ss_ok n k n_tasks : forall g,
  k <= n ->
  exists Ss g',
    make_Ss n k n_tasks g = (Ok Ss, g') /\
    length Ss = n_tasks /\
    Forall (fun S_ => length S_ = k /\ NoDup S_ /\ Forall (fun s => s < n) S_) Ss.
Proof.
  induction n_tasks as [|m IH]; intros g Hk.
  - exists [], g; repeat split; constructor.
  - destruct (@random_sample_ok n k g Hk) as (S_ & g1 & E1 & H1).
    destruct (IH g1 Hk) as (Ss & g2 & E2 & HL & HF).
    exists (S_ :: Ss), g2; repeat split.
    + cbn [make_Ss]; unfold bind, ret; rewrite E1, E2; reflexivity.
    + simpl; lia.
    + constructor; auto.
Qed.

Lemma make_Ss_fail n k n_tasks g :
  n < k -> 1 <= n_tasks -> make_Ss n k n_tasks g = (Raise ValueError, g).
Proof.
  intros Hk Hn; destruct n_tasks as [|m]; [lia|].
  cbn [make_Ss]; unfold bind; now rewrite random_sample_fail.
Qed.

(** ** The Learner's layers *)

Lemma add_hidden_layers n_in width depth f : forall len start layers,
  1 <= start -> start + len <= depth - 1 ->
  fold_left (add_layer n_in width depth f) (seq start len) layers
  = layers ++ hidden_layers width f len.
Proof.
  unfold hidden_layers; induction len as [|len IH]; intros start layers H1 H2; simpl.
  - now rewrite app_nil_r.
  - rewrite IH by lia; unfold add_layer.
    replace (start =? 0) with false by (symmetry; apply Nat.eqb_neq; lia).
    replace (start =? depth - 1) with false by (symmetry; apply Nat.eqb_neq; lia).
    now rewrite <- app_assoc.
Qed.

(** With two layers or more the stack is the one the design describes. *)
Lemma build_layers_depth_ge_2 n_in width depth f :
  2 <= depth -> build_layers n_in width depth f = learner_spec n_in width depth f.
Proof.
  destruct depth as [|[|m]]; try lia; intros _.
  unfold build_layers, learner_spec.
  rewrite seq_S, fold_left_app; cbn [seq fold_left].
  rewrite add_hidden_layers by (simpl; lia).
  unfold add_layer; cbn [Nat.eqb app Nat.add].
  replace (S (S m) - 1) with (S m) by lia.
  now rewrite Nat.eqb_refl.
Qed.

Lemma affine_layers_hidden width f m :
  affine_layers (hidden_layers width f m) = repeat (width, width) m.
Proof.
  unfold hidden_layers; induction m as [|m IH]; simpl; auto.
  now f_equal.
Qed.

(** ... so that it has exactly [depth] affine layers, the first from the
    input to [width], the last from [width] to the 2 logits. *)
Lemma build_layers_affine n_in width depth f :
  2 <= depth ->
  affine_layers (build_layers n_in width depth f)
  = (n_in, width) :: repeat (width, width) (depth - 2) ++ [(width, 2)].
Proof.
  intros H; rewrite build_layers_depth_ge_2 by assumption.
  destruct depth as [|[|m]]; try lia.
  unfold learner_spec, affine_layers; cbn [flat_map app].
  rewrite flat_map_app; fold (affine_layers (hidden_layers width f m)).
  rewrite affine_layers_hidden; simpl; now rewrite Nat.sub_0_r.
Qed.

(** [C4] With [depth = 1] the loop takes its first branch, the one for
    [i == 0], and never the one for the last layer: the stack built is one
    affine map from the input to [width] followed by the nonlinearity, not
    the single affine map to 2 logits of the design. *)
Theorem build_layers_depth_1 n_in width f :
  build_layers n_in width 1 f = [Linear n_in width; Activation f] /\
  learner_spec n_in width 1 f = [Linear n_in 2] /\
  build_layers n_in width 1 f <> learner_spec n_in width 1 f.
Proof.
  repeat split; discriminate.
Qed.

(** ** The run up to its loop *)

Lemma run_reaches_loop T c seed py np tc f p g_torch Ss g_py :
  resolve_activation (activation c) = Ok f ->
  init_params T (build_layers (n_tasks c + n c) (width c) (depth c) f)
    {| tape := torch_manual_seed T seed; pos := 0 |} = (p, g_torch) ->
  make_Ss (n c) (k c) (n_tasks c) {| tape := random_seed T seed; pos := 0 |}
  = (Ok Ss, g_py) ->
  make_optimizer (build_layers (n_tasks c + n c) (width c) (depth c) f) (lr c) = Ok tt ->
  run T c seed (initial_state T py np tc)
  = forM_ (seq 0 (steps c)) (run_step T c Ss)
      (ready_state T c seed (build_layers (n_tasks c + n c) (width c) (depth c) f)
         p g_py g_torch Ss).
Proof.
  intros Hact Hinit HSs Hopt.
  unfold run, bind, modify, lift, with_torch, with_py; cbv beta.
  rewrite Hact; cbn [seed_generators initial_state torch_random py_random].
  rewrite Hinit; cbn [torch_random py_random set_mlp add_log with_info].
  rewrite HSs, Hopt; reflexivity.
Qed.

Lemma run_bad_optimizer T c seed py np tc f p g_torch Ss g_py e :
  resolve_activation (activation c) = Ok f ->
  init_params T (build_layers (n_tasks c + n c) (width c) (depth c) f)
    {| tape := torch_manual_seed T seed; pos := 0 |} = (p, g_torch) ->
  make_Ss (n c) (k c) (n_tasks c) {| tape := random_seed T seed; pos := 0 |}
  = (Ok Ss, g_py) ->
  make_optimizer (build_layers (n_tasks c + n c) (width c) (depth c) f) (lr c) = Raise e ->
  run T c seed (initial_state T py np tc)
  = (Raise e,
     subtasks_stored_state T c seed
       (build_layers (n_tasks c + n c) (width c) (depth c) f) p g_py g_torch Ss).
Proof.
  intros Hact Hinit HSs Hopt.
  unfold run, bind, modify, lift, with_torch, with_py; cbv beta.
  rewrite Hact; cbn [seed_generators initial_state torch_random py_random].
  rewrite Hinit; cbn [torch_random py_random set_mlp add_log with_info].
  rewrite HSs, Hopt; reflexivity.
Qed.

Lemma has_parameters_add_layer n_in width depth f l : forall layers,
  has_parameters layers = true ->
  has_parameters (fold_left (add_layer n_in width depth f) l layers) = true.
Proof.
  induction l as [|i l IH]; intros layers H; cbn [fold_left]; auto.
  apply IH; unfold add_layer, has_parameters in *.
  destruct (i =? 0); [|destruct (i =? depth - 1)];
    rewrite existsb_app, H; reflexivity.
Qed.

(** The optimizer is created exactly when the learning rate is not
    negative and the stack has a layer. *)
Lemma make_optimizer_ok n_in width depth f lr :
  1 <= depth -> Qle_bool 0 lr = true ->
  make_optimizer (build_layers n_in width depth f) lr = Ok tt.
Proof.
  intros Hd Hlr; unfold make_optimizer; rewrite Hlr; cbn [negb].
  destruct depth as [|m]; [lia|].
  unfold build_layers; cbn [seq fold_left].
  now rewrite has_parameters_add_layer.
Qed.

Lemma make_optimizer_cases layers lr :
  make_optimizer layers lr = Ok tt \/ make_optimizer layers lr = Raise ValueError.
Proof.
  unfold make_optimizer.
  destruct (negb (Qle_bool 0 lr)); auto; destruct (has_parameters layers); auto.
Qed.

Lemma run_bad_activation T c seed py np tc :
  resolve_activation (activation c) = Raise AssertionError ->
  run T c seed (initial_state T py np tc)
  = (Raise AssertionError, seed_generators seed (initial_state T py np tc)).
Proof.
  intros Hact; unfold run, bind, modify, lift; cbv beta; now rewrite Hact.
Qed.

Lemma run_bad_sample T c seed py np tc f p g_torch e g_py :
  resolve_activation (activation c) = Ok f ->
  init_params T (build_layers (n_tasks c + n c) (width c) (depth c) f)
    {| tape := torch_manual_seed T seed; pos := 0 |} = (p, g_torch) ->
  make_Ss (n c) (k c) (n_tasks c) {| tape := random_seed T seed; pos := 0 |}
  = (Raise e, g_py) ->
  run T c seed (initial_state T py np tc)
  = (Raise e,
     model_built_state T c seed (build_layers (n_tasks c + n c) (width c) (depth c) f)
       p g_py g_torch).
Proof.
  intros Hact Hinit HSs.
  unfold run, bind, modify, lift, with_torch, with_py; cbv beta.
  rewrite Hact; cbn [seed_generators initial_state torch_random py_random].
  rewrite Hinit; cbn [torch_random py_random set_mlp add_log with_info].
  rewrite HSs; reflexivity.
Qed.

Lemma resolve_activation_cases name :
  (exists f, resolve_activation name = Ok f) \/
  resolve_activation name = Raise AssertionError.
Proof.
  unfold resolve_activation.
  repeat match goal with |- context [if ?b then _ else _] => destruct b end; eauto.
Qed.

(** ** The evaluation event *)

(** An evaluation event that starts with no value bound to [loss] does not
    complete.  It leaves every series but [accuracies] as it found it; if it
    got as far as appending its accuracy, it stops at the read of [loss]. *)
Lemma evaluate_unbound_loss T c Ss step (s : State T) ls :
  loss s = None ->
  losses (info s) = Some ls ->
  exists e s',
    evaluate T c Ss step s = (Raise e, s') /\
    loss s' = None /\ mlp s' = mlp s /\ debug_log s' = debug_log s /\
    same_but_accuracies (info s) (info s') /\
    (history s' = history s \/
     exists codes sizes, history s' = history s ++ [EvaluationBatch step codes sizes]) /\
    (accuracies (info s') = accuracies (info s) \/
     e = UnboundLocalError /\
     exists l a, accuracies (info s) = Some l /\ accuracies (info s') = Some (l ++ [a])).
Proof.
  intros Hloss Hlosses.
  unfold evaluate, append_info, read_info, bind, with_np, with_torch, modify, lift,
    read_local, ret; cbv beta.
  repeat (split_head; cbn [np_random torch_random mlp loss info history add_event
                           with_info set_accuracies accuracies losses] in *);
    try congruence;
    eexists _, _; (split; [reflexivity|]);
    cbn [np_random torch_random mlp loss info history debug_log add_event
         with_info set_accuracies accuracies];
    unfold same_but_accuracies; cbn;
    repeat split; eauto 10.
Qed.

(** ** The first step of the loop *)

(** Step 0 always takes the evaluation branch, since [0 % log_freq == 0]
    for every non-zero period, and no value is bound to [loss] yet. *)
Lemma run_step_0 T c Ss (s : State T) ls :
  loss s = None ->
  losses (info s) = Some ls ->
  exists e s',
    run_step T c Ss 0 s = (Raise e, s') /\
    loss s' = None /\ mlp s' = mlp s /\ debug_log s' = debug_log s /\
    same_but_accuracies (info s) (info s') /\
    (history s' = history s \/
     exists codes sizes, history s' = history s ++ [EvaluationBatch 0 codes sizes]) /\
    (accuracies (info s') = accuracies (info s) \/
     e = UnboundLocalError /\
     exists l a, accuracies (info s) = Some l /\ accuracies (info s') = Some (l ++ [a])) /\
    (log_freq c = 0 -> e = ZeroDivisionError /\ s' = s).
Proof.
  intros Hloss Hlosses; unfold run_step, bind, lift, py_mod; cbv beta.
  destruct (log_freq c) as [|lf] eqn:Hlf.
  - exists ZeroDivisionError, s; cbn [Nat.eqb].
    unfold same_but_accuracies; repeat split; auto.
  - cbn [Nat.eqb]; rewrite Nat.Div0.mod_0_l; cbn [Nat.eqb].
    destruct (@evaluate_unbound_loss T c Ss 0 s ls Hloss Hlosses) as (e & s' & E & H).
    rewrite E; exists e, s'; split; [reflexivity|].
    destruct H as (H0 & H1 & H2 & H3 & H4 & H5).
    repeat (split; [assumption|]); intros; discriminate.
Qed.

Lemma forM_first_raises {St A} (body : A -> M St unit) a l s e s' :
  body a s = (Raise e, s') -> forM_ (a :: l) body s = (Raise e, s').
Proof.
  intros E; cbn [forM_]; unfold bind; now rewrite E.
Qed.

(** ** What every run does *)

(** Whatever the configuration, the seed and the numerical library: a run
    of at least one step raises; no entry is ever appended to [log_steps],
    to [losses] or to a per-subtask series; [accuracies] receives at most
    one entry, and then the run stops at the read of [loss]; no training
    batch is drawn and no optimizer update is made. *)
Lemma every_run T c seed py np tc :
  let out := run T c seed (initial_state T py np tc) in
  (1 <= steps c -> exists e, fst out = Raise e) /\
  no_entry (log_steps (info (snd out))) /\
  no_entry (losses (info (snd out))) /\
  no_entry (losses_subtasks (info (snd out))) /\
  no_entry (accuracies_subtasks (info (snd out))) /\
  (no_entry (accuracies (info (snd out))) \/
   fst out = Raise UnboundLocalError /\
   exists a, accuracies (info (snd out)) = Some [a]) /\
  loss (snd out) = None /\
  (history (snd out) = [] \/
   exists codes sizes, history (snd out) = [EvaluationBatch 0 codes sizes]).
Proof.
  unfold no_entry; cbv zeta.
  destruct (resolve_activation_cases (activation c)) as [[f Hact]|Hact].
  2:{ rewrite run_bad_activation by assumption; cbn.
      repeat split; eauto. }
  destruct (init_params T (build_layers (n_tasks c + n c) (width c) (depth c) f)
              {| tape := torch_manual_seed T seed; pos := 0 |}) as [p g_torch] eqn:Hinit.
  destruct (make_Ss (n c) (k c) (n_tasks c) {| tape := random_seed T seed; pos := 0 |})
    as [[Ss|e] g_py] eqn:HSs.
  2:{ rewrite (@run_bad_sample T c seed py np tc f p g_torch e g_py Hact Hinit HSs); cbn.
      repeat split; eauto. }
  destruct (make_optimizer_cases
              (build_layers (n_tasks c + n c) (width c) (depth c) f) (lr c)) as [Hopt|Hopt].
  2:{ rewrite (@run_bad_optimizer T c seed py np tc f p g_torch Ss g_py _ Hact Hinit HSs Hopt).
      cbn; repeat split; eauto. }
  rewrite (@run_reaches_loop T c seed py np tc f p g_torch Ss g_py Hact Hinit HSs Hopt).
  destruct (steps c) as [|m] eqn:Hsteps.
  - cbn; repeat split; auto; lia.
  - cbn [seq].
    destruct (@run_step_0 T c Ss
                (ready_state T c seed
                   (build_layers (n_tasks c + n c) (width c) (depth c) f)
                   p g_py g_torch Ss) [] eq_refl eq_refl)
      as (e & s' & E & Hl & _ & _ & Hframe & Hhist & Hacc & _).
    rewrite (@forM_first_raises _ _ _ _ _ _ _ _ E); cbn [fst snd].
    destruct Hframe as (_ & _ & _ & F1 & F2 & F3 & F4).
    cbn in F1, F2, F3, F4, Hhist, Hacc.
    rewrite F1, F2, F3, F4; repeat split; eauto.
    destruct Hacc as [Ha|(-> & l & a & Hl0 & Ha)].
    + left; right; exact Ha.
    + right; split; auto; inversion Hl0; subst; eauto.
Qed.

(** ** What an evaluation event writes *)

Lemma forM_invariant {St A} (P : St -> Prop) (body : A -> M St unit) l :
  (forall a s, P s -> P (snd (body a s))) ->
  forall s, P s -> P (snd (forM_ l body s)).
Proof.
  intros Hbody; induction l as [|a l IH]; intros s Hs; cbn [forM_]; auto.
  unfold bind; specialize (Hbody a s Hs).
  destruct (body a s) as [[[]|e] s1]; cbn [snd] in *; auto.
Qed.

(** The probe of one subtask touches the per-subtask series only. *)
Lemma evaluate_subtask_frame T c Ss i (s : State T) :
  let s' := snd (evaluate_subtask T c Ss i s) in
  log_steps (info s') = log_steps (info s) /\
  losses (info s') = losses (info s) /\
  accuracies (info s') = accuracies (info s) /\
  loss s' = loss s /\ mlp s' = mlp s /\ history s' = history s.
Proof.
  unfold evaluate_subtask, append_info_subtask, read_info,
    bind, with_torch, modify, lift, read_local, ret; cbv beta zeta.
  repeat (split_head; cbn [torch_random mlp loss info history with_info
                           set_losses_subtasks set_accuracies_subtasks
                           losses_subtasks accuracies_subtasks] in *);
    cbn; auto 10.
Qed.

(** An evaluation event never writes to [log_steps]; the only value it can
    append to [losses] is the one found in the variable [loss] when the
    event starts, and an event that completes has appended it. *)
Lemma evaluate_writes T c Ss step (s : State T) :
  let out := evaluate T c Ss step s in
  log_steps (info (snd out)) = log_steps (info s) /\
  loss (snd out) = loss s /\
  (losses (info (snd out)) = losses (info s) \/
   exists v ls, loss s = Some v /\ losses (info s) = Some ls /\
                losses (info (snd out)) = Some (ls ++ [v])) /\
  (fst out = Ok tt ->
   exists v ls, loss s = Some v /\ losses (info s) = Some ls /\
                losses (info (snd out)) = Some (ls ++ [v])).
Proof.
  unfold evaluate, append_info, read_info, bind, with_np, with_torch, modify, lift,
    read_local, ret; cbv beta zeta.
  repeat (split_head; cbn [np_random torch_random mlp loss info history add_event
                           with_info set_accuracies set_losses accuracies losses] in *);
    try (cbn; repeat split; auto; intros; discriminate).
  match goal with
  | |- context [forM_ ?l ?body ?s0] =>
      pose proof (@forM_invariant _ _
        (fun s' : State T =>
           log_steps (info s') = log_steps (info s0) /\
           losses (info s') = losses (info s0) /\ loss s' = loss s0)
        body l) as Hinv;
      specialize (Hinv
        (fun a s1 Hs1 =>
           let F := @evaluate_subtask_frame T c Ss a s1 in
           conj (eq_trans (proj1 F) (proj1 Hs1))
             (conj (eq_trans (proj1 (proj2 F)) (proj1 (proj2 Hs1)))
                (eq_trans (proj1 (proj2 (proj2 (proj2 F)))) (proj2 (proj2 Hs1)))))
        s0 (conj eq_refl (conj eq_refl eq_refl)));
      destruct Hinv as (I1 & I2 & I3)
  end.
  rewrite I1, I2, I3; cbn.
  repeat split; eauto 10.
Qed.

(** ** The Task-Mixture Sampler *)

Lemma hist_incr_keys s hist c :
  In c (map fst (hist_incr s hist)) <-> c = s \/ In c (map fst hist).
Proof.
  induction hist as [|[key v] hist IH]; simpl.
  - intuition.
  - destruct (key =? s) eqn:E; simpl.
    + apply Nat.eqb_eq in E; subst; intuition.
    + rewrite IH; intuition.
Qed.

Lemma histogram_keys samples : forall hist c,
  In c (map fst (fold_left (fun h s => hist_incr s h) samples hist))
  <-> In c samples \/ In c (map fst hist).
Proof.
  induction samples as [|s samples IH]; intros hist c; simpl.
  - intuition.
  - rewrite IH, hist_incr_keys; intuition.
Qed.

(** The codes of a composition are the drawn ranks themselves, in
    [1 .. n_tasks]: no rank is converted to a zero-based index, so code 0
    never occurs. *)
Lemma draw_composition_codes_are_ranks alpha n_tasks m g codes sizes g' :
  draw_composition alpha n_tasks m g = (Ok (codes, sizes), g') ->
  Forall (fun c => 1 <= c <= n_tasks) codes.
Proof.
  unfold draw_composition, zipfian_rvs, bind, raise, ret.
  destruct (n_tasks =? 0) eqn:Hn; [simpl; discriminate|].
  destruct (negb (Qle_bool 0 alpha)); [simpl; discriminate|].
  cbn [orb]; intros E; inversion E; subst; clear E.
  apply Nat.eqb_neq in Hn.
  apply Forall_forall; intros c Hc.
  unfold histogram in Hc; apply histogram_keys in Hc as [Hc|Hc]; [|destruct Hc].
  apply in_map_iff in Hc as (i & <- & _).
  pose proof (Nat.mod_upper_bound (peek g i) n_tasks Hn); lia.
Qed.

(** A composition that holds a code beyond the last subtask cannot be
    served. *)
Lemma select_subtasks_out_of_range Ss codes c :
  In c codes -> length Ss <= c -> select_subtasks Ss codes = Raise IndexError.
Proof.
  unfold select_subtasks; induction codes as [|c0 codes IH]; intros Hin Hc;
    [destruct Hin|]; destruct Hin as [->|Hin]; cbn [mapR]; unfold list_index at 1.
  - now replace (nth_error Ss c) with (@None (list nat)) by (symmetry; apply nth_error_None; lia).
  - destruct (nth_error Ss c0); auto.
    now rewrite IH.
Qed.

(** [C1] On the end-to-end example of the design (four subtasks, eight
    evaluation points) the evaluation draw is the ranks 1, 2, 3, 4, each
    twice.  The script hands the ranks themselves to the lookup [Ss[c]]:
    rank 4 is beyond the last subtask and the run stops with [IndexError]
    at step 0.  Ranks 1, 2, 3 select the subtasks at positions 1, 2, 3, not
    0, 1, 2. *)
Theorem zipfian_ranks_used_as_indices :
  let out := run toy_torch (small_config 8) 0 (initial_state toy_torch idle idle idle) in
  fst out = Raise IndexError /\
  history (snd out) = [EvaluationBatch 0 [1; 2; 3; 4] [2; 2; 2; 2]] /\
  info_Ss (info (snd out)) = Some small_Ss /\
  select_subtasks small_Ss [1; 2; 3; 4] = Raise IndexError /\
  select_subtasks small_Ss [1; 2; 3] = Ok [[2; 4]; [4; 6]; [6; 8]].
Proof.
  vm_compute; repeat split.
Qed.

(** ** The aggregate metrics *)

(** [C2] On the end-to-end example with three evaluation points the
    evaluation at step 0 draws its batch, appends the accuracy and then
    reads the variable [loss], which only a training step assigns: the run
    stops with [UnboundLocalError] and [losses] stays empty. *)
Theorem aggregate_loss_read_before_assignment :
  let out := run toy_torch (small_config 3) 0 (initial_state toy_torch idle idle idle) in
  fst out = Raise UnboundLocalError /\
  history (snd out) = [EvaluationBatch 0 [1; 2; 3] [1; 1; 1]] /\
  accuracies (info (snd out)) = Some [Qmake 3 3] /\
  losses (info (snd out)) = Some [].
Proof.
  vm_compute; repeat split.
Qed.

(** When an evaluation event does find a value in [loss], the entry it
    appends is that value, the loss of the training batch of the step
    before, and not the loss of the batch the event has drawn: here the
    training loss is 6 and the loss on the evaluation batch is 0. *)
Example stale_loss_is_logged :
  let s1 := snd (train toy_torch (small_config 3) small_Ss 0 small_state) in
  let out := evaluate toy_torch (small_config 3) small_Ss 1 s1 in
  let batch := fst (get_batch 4 10 [[6; 8]; [2; 4]; [4; 6]] [3; 1; 2] [1; 1; 1]
                      (torch_random s1)) in
  loss s1 = Some 6 /\
  fst out = Ok tt /\
  history (snd out) = [TrainingBatch 0 [1; 2; 3] [3; 3; 2]; OptimizerStep 0;
                       EvaluationBatch 1 [3; 1; 2] [1; 1; 1]] /\
  losses (info (snd out)) = Some [6] /\
  match batch with
  | Ok (x_i, y_i) => loss_fn toy_torch [[1; 0]; [1; 0]; [1; 0]] y_i = Ok 0
  | Raise _ => False
  end.
Proof.
  vm_compute; repeat split.
Qed.

(** [C3] On the end-to-end example (one step, period one) the design
    expects one entry in every series.  The run stops inside the evaluation
    of step 0 with one entry in [accuracies] and none in [log_steps],
    [losses] or the per-subtask series. *)
Theorem log_steps_never_appended :
  let c := small_config 3 in
  let out := run toy_torch c 0 (initial_state toy_torch idle idle idle) in
  expected_log_entries (steps c) (log_freq c) = 1 /\
  fst out = Raise UnboundLocalError /\
  log_steps (info (snd out)) = Some [] /\
  accuracies (info (snd out)) = Some [Qmake 3 3] /\
  losses (info (snd out)) = Some [] /\
  losses_subtasks (info (snd out)) = Some [] /\
  accuracies_subtasks (info (snd out)) = Some [].
Proof.
  vm_compute; repeat split.
Qed.

(** Even an evaluation event that completes leaves [log_steps] empty while
    the other four series grow. *)
Example completed_evaluation_skips_log_steps :
  let s1 := snd (train toy_torch (small_config 3) small_Ss 0 small_state) in
  let out := evaluate toy_torch (small_config 3) small_Ss 1 s1 in
  fst out = Ok tt /\
  log_steps (info (snd out)) = Some [] /\
  accuracies (info (snd out)) = Some [Qmake 3 3] /\
  losses (info (snd out)) = Some [6] /\
  losses_subtasks (info (snd out)) = Some [(0, [1]); (1, [2]); (2, [1]); (3, [1])].
Proof.
  vm_compute; repeat split.
Qed.

(** ** Invalid configurations *)

(** The configuration with [k > n] is not rejected before any computation:
    when [random.sample] raises, the model has been built, both debug
    messages have been logged and [P] and [D] are in [ex.info]. *)
Lemma k_gt_n_fails_after_model_construction :
  let c := oversized_k_config in
  let out := run toy_torch c 0 (initial_state toy_torch idle idle idle) in
  n c < k c /\
  fst out = Raise ValueError /\
  mlp (snd out) = Some ([Linear 14 3; Activation ReLU; Linear 3 2], 0) /\
  debug_log (snd out) = [CreatedModel; ModelHasParameters 53] /\
  info_P (info (snd out)) = Some 53 /\
  info_D (info (snd out)) = Some 8 /\
  ~ fails_eagerly out.
Proof.
  cbv zeta.
  split; [cbn [n k oversized_k_config]; lia|].
  do 5 (split; [vm_compute; reflexivity|]).
  intros (_ & Hmlp & _); vm_compute in Hmlp; discriminate.
Qed.

(** The script recognizes exactly the identifiers [ReLU], [Tanh] and
    [Sigmoid], written so; for any other the assertion fails. *)
Lemma resolve_activation_spec name :
  (forall f, resolve_activation name = Ok f <-> activation_named name f) /\
  (resolve_activation name = Raise AssertionError <-> unrecognized name).
Proof.
  unfold resolve_activation, activation_named, unrecognized.
  destruct (String.eqb_spec name "ReLU") as [->|H1].
  { split; [intros f|]; split; intros H.
    - inversion H; auto.
    - destruct H as [[_ ->]|[[H _]|[H _]]]; try discriminate; reflexivity.
    - discriminate.
    - destruct H as [H _]; congruence. }
  destruct (String.eqb_spec name "Tanh") as [->|H2].
  { split; [intros f|]; split; intros H.
    - inversion H; auto.
    - destruct H as [[H _]|[[_ ->]|[H _]]]; try discriminate; reflexivity.
    - discriminate.
    - destruct H as (_ & H & _); congruence. }
  destruct (String.eqb_spec name "Sigmoid") as [->|H3].
  { split; [intros f|]; split; intros H.
    - inversion H; auto 6.
    - destruct H as [[H _]|[[H _]|[_ ->]]]; try discriminate; reflexivity.
    - discriminate.
    - destruct H as (_ & _ & H); congruence. }
  split; [intros f|]; split; intros H; auto.
  - discriminate.
  - destruct H as [[H _]|[[H _]|[H _]]]; congruence.
Qed.

(** [C8] An activation identifier other than [ReLU], [Tanh] and [Sigmoid]
    makes the run fail with [AssertionError] before any computation: no
    model, no log, nothing in [ex.info].  [k > n] with at least one subtask
    and a recognized activation makes the run fail with [ValueError] when
    the subtasks are created: the model is built and [P] and [D] are
    recorded by then, but neither the Subtask Set nor any metric series
    exists and no batch has been drawn. *)
Theorem invalid_configuration_failures T c seed py np tc :
  unrecognized (activation c) \/ (n c < k c /\ 1 <= n_tasks c) ->
  let out := run T c seed (initial_state T py np tc) in
  exists e,
    fst out = Raise e /\
    info_Ss (info (snd out)) = None /\
    log_steps (info (snd out)) = None /\
    accuracies (info (snd out)) = None /\
    losses (info (snd out)) = None /\
    losses_subtasks (info (snd out)) = None /\
    accuracies_subtasks (info (snd out)) = None /\
    history (snd out) = [] /\
    (unrecognized (activation c) -> e = AssertionError /\ fails_eagerly out) /\
    (forall f, activation_named (activation c) f ->
       e = ValueError /\
       exists p g_torch,
         snd out = model_built_state T c seed
                     (build_layers (n_tasks c + n c) (width c) (depth c) f)
                     p {| tape := random_seed T seed; pos := 0 |} g_torch).
Proof.
  intros H; cbv zeta.
  destruct (resolve_activation_spec (activation c)) as [Hnamed Hunrec].
  destruct (resolve_activation_cases (activation c)) as [[f Hact]|Hact].
  - destruct H as [H|[Hk Hn]]; [apply Hunrec in H; congruence|].
    destruct (init_params T (build_layers (n_tasks c + n c) (width c) (depth c) f)
                {| tape := torch_manual_seed T seed; pos := 0 |}) as [p g_torch] eqn:Hinit.
    pose proof (@make_Ss_fail (n c) (k c) (n_tasks c)
                  {| tape := random_seed T seed; pos := 0 |} Hk Hn) as HSs.
    rewrite (@run_bad_sample T c seed py np tc f p g_torch _ _ Hact Hinit HSs).
    exists ValueError; cbn [fst snd]; repeat (split; [reflexivity|]); split.
    + intros Hu; apply Hunrec in Hu; congruence.
    + intros f' Hf'; apply Hnamed in Hf'.
      assert (f' = f) by congruence; subst f'; eauto.
  - rewrite run_bad_activation by assumption.
    exists AssertionError; cbn [fst snd]; repeat (split; [reflexivity|]); split.
    + intros _; unfold fails_eagerly; cbn; repeat split; eauto.
    + intros f Hf; apply Hnamed in Hf; congruence.
Qed.

Lemma invalid_configuration_failures_witness :
  (let out := run toy_torch unknown_activation_config 0
                (initial_state toy_torch idle idle idle) in
    exists e,
      fst out = Raise e /\
      info_Ss (info (snd out)) = None /\
      log_steps (info (snd out)) = None /\
      accuracies (info (snd out)) = None /\
      losses (info (snd out)) = None /\
      losses_subtasks (info (snd out)) = None /\
      accuracies_subtasks (info (snd out)) = None /\
      history (snd out) = [] /\
      (unrecognized (activation unknown_activation_config) -> e = AssertionError /\ fails_eagerly out) /\
      (forall f, activation_named (activation unknown_activation_config) f ->
         e = ValueError /\
         exists p g_torch,
           snd out = model_built_state toy_torch unknown_activation_config 0
                       (build_layers (n_tasks unknown_activation_config + n unknown_activation_config) (width unknown_activation_config) (depth unknown_activation_config) f)
                       p {| tape := random_seed toy_torch 0; pos := 0 |} g_torch)) /\
  (let out := run toy_torch oversized_k_config 0
                (initial_state toy_torch idle idle idle) in
    exists e,
      fst out = Raise e /\
      info_Ss (info (snd out)) = None /\
      log_steps (info (snd out)) = None /\
      accuracies (info (snd out)) = None /\
      losses (info (snd out)) = None /\
      losses_subtasks (info (snd out)) = None /\
      accuracies_subtasks (info (snd out)) = None /\
      history (snd out) = [] /\
      (unrecognized (activation oversized_k_config) -> e = AssertionError /\ fails_eagerly out) /\
      (forall f, activation_named (activation oversized_k_config) f ->
         e = ValueError /\
         exists p g_torch,
           snd out = model_built_state toy_torch oversized_k_config 0
                       (build_layers (n_tasks oversized_k_config + n oversized_k_config) (width oversized_k_config) (depth oversized_k_config) f)
                       p {| tape := random_seed toy_torch 0; pos := 0 |} g_torch)).
Proof.
  split.
  - apply (@invalid_configuration_failures toy_torch unknown_activation_config 0
             idle idle idle).
    left; unfold unrecognized; cbn [activation unknown_activation_config].
    repeat split; discriminate.
  - apply (@invalid_configuration_failures toy_torch oversized_k_config 0 idle idle idle).
    right; cbn [n k n_tasks oversized_k_config]; lia.
Defined.

(** The unknown identifier is rejected with nothing built and the
    oversized [k] after the model is built. *)
Example invalid_configurations_differ :
  let out1 := run toy_torch unknown_activation_config 0
                (initial_state toy_torch idle idle idle) in
  let out2 := run toy_torch oversized_k_config 0
                (initial_state toy_torch idle idle idle) in
  fst out1 = Raise AssertionError /\ mlp (snd out1) = None /\
  info_P (info (snd out1)) = None /\
  fst out2 = Raise ValueError /\ info_P (info (snd out2)) = Some 53.
Proof.
  vm_compute; repeat split.
Qed.

(** ** Determinism *)

(** With at least one subtask and a non-negative exponent the Zipfian
    draw succeeds and reads [m] raw draws. *)
Lemma draw_composition_succeeds alpha n_tasks m g :
  1 <= n_tasks -> Qle_bool 0 alpha = true ->
  exists codes sizes,
    draw_composition alpha n_tasks m g = (Ok (codes, sizes), advance m g).
Proof.
  intros Hn Ha; unfold draw_composition, zipfian_rvs, bind, ret.
  replace (n_tasks =? 0) with false by (symmetry; apply Nat.eqb_neq; lia).
  rewrite Ha; cbn [orb negb]; eauto.
Qed.

(** An evaluation on a state where [loss] is unbound stops at the read of
    [loss] or before; by then it has made the Zipfian draw of
    [test_points] ranks and recorded its composition, and it has left the
    Subtask Set as it was. *)
Lemma evaluate_first_draw T c Ss step (s : State T) ls codes sizes g :
  loss s = None ->
  losses (info s) = Some ls ->
  draw_composition (alpha c) (n_tasks c) (test_points c) (np_random s)
  = (Ok (codes, sizes), g) ->
  exists e s',
    evaluate T c Ss step s = (Raise e, s') /\
    info_Ss (info s') = info_Ss (info s) /\
    history s' = history s ++ [EvaluationBatch step codes sizes] /\
    np_random s' = g.
Proof.
  intros Hloss Hlosses Hdraw.
  unfold evaluate, append_info, read_info, bind, with_np, with_torch, modify, lift,
    read_local, ret; cbv beta.
  rewrite Hdraw; cbv beta iota.
  repeat (split_head; cbn [np_random torch_random mlp loss info history add_event
                           with_info set_accuracies accuracies losses] in *);
    try congruence;
    eexists _, _; (split; [reflexivity|]); cbn; auto.
Qed.

(** A training step first makes the Zipfian draw of [batch_size] ranks and
    records its composition, whatever happens afterwards: the composition
    depends on the generator of numpy and on nothing else in the state. *)
Lemma train_first_draw T c Ss step (s : State T) codes sizes g :
  draw_composition (alpha c) (n_tasks c) (batch_size c) (np_random s)
  = (Ok (codes, sizes), g) ->
  exists rest,
    history (snd (train T c Ss step s))
    = history s ++ TrainingBatch step codes sizes :: rest /\
    np_random (snd (train T c Ss step s)) = g.
Proof.
  intros Hdraw.
  unfold train, bind, with_np, with_torch, modify, lift, read_local, ret; cbv beta.
  rewrite Hdraw; cbv beta iota.
  repeat (split_head; cbn [np_random torch_random mlp loss info history add_event
                           set_loss set_mlp fst snd] in *);
    cbn; try (rewrite <- app_assoc; cbn [app]); eauto.
Qed.

(** [C9] Two runs with the same configuration and the same seed, started
    with the generators in arbitrary and different states, end with the
    same outcome and in the same state, in particular with the same
    Subtask Set and the same history of batch compositions.  When the
    activation is recognized and [k <= n], the Subtask Set of both is the
    one that [random.sample] yields from the generator seeded with [seed].
    When the loop is entered with a non-zero period, the first step of both
    draws the same evaluation composition, the one that the generator of
    numpy seeded with [seed] yields, and leaves that generator in the same
    state [g]; the training step of step 0, from any state whose numpy
    generator is [g], records one and the same composition. *)
Theorem same_seed_same_run T c seed py1 np1 tc1 py2 np2 tc2 :
  let out1 := run T c seed (initial_state T py1 np1 tc1) in
  let out2 := run T c seed (initial_state T py2 np2 tc2) in
  out1 = out2 /\
  info_Ss (info (snd out1)) = info_Ss (info (snd out2)) /\
  history (snd out1) = history (snd out2) /\
  (forall f,
     resolve_activation (activation c) = Ok f ->
     k c <= n c ->
     exists Ss g_py,
       make_Ss (n c) (k c) (n_tasks c) {| tape := random_seed T seed; pos := 0 |}
       = (Ok Ss, g_py) /\
       info_Ss (info (snd out1)) = Some Ss /\
       info_Ss (info (snd out2)) = Some Ss /\
       (1 <= depth c -> Qle_bool 0 (lr c) = true ->
        1 <= steps c -> 1 <= log_freq c ->
        1 <= n_tasks c -> Qle_bool 0 (alpha c) = true ->
        exists codes sizes g codes' sizes' g',
          draw_composition (alpha c) (n_tasks c) (test_points c)
            {| tape := np_random_seed T seed; pos := 0 |}
          = (Ok (codes, sizes), g) /\
          history (snd out1) = [EvaluationBatch 0 codes sizes] /\
          history (snd out2) = [EvaluationBatch 0 codes sizes] /\
          np_random (snd out1) = g /\
          np_random (snd out2) = g /\
          draw_composition (alpha c) (n_tasks c) (batch_size c) g
          = (Ok (codes', sizes'), g') /\
          forall Ss' (s : State T),
            np_random s = g ->
            exists rest,
              history (snd (train T c Ss' 0 s))
              = history s ++ TrainingBatch 0 codes' sizes' :: rest)).
Proof.
  cbv zeta.
  assert (E : run T c seed (initial_state T py1 np1 tc1)
              = run T c seed (initial_state T py2 np2 tc2))
    by (unfold run, bind, modify; reflexivity).
  rewrite <- E; repeat (split; [reflexivity|]).
  intros f Hact Hk.
  destruct (@make_Ss_ok (n c) (k c) (n_tasks c)
              {| tape := random_seed T seed; pos := 0 |} Hk) as (Ss & g_py & HSs & _).
  destruct (init_params T (build_layers (n_tasks c + n c) (width c) (depth c) f)
              {| tape := torch_manual_seed T seed; pos := 0 |}) as [p g_torch] eqn:Hinit.
  exists Ss, g_py; split; [exact HSs|].
  destruct (make_optimizer_cases
              (build_layers (n_tasks c + n c) (width c) (depth c) f) (lr c)) as [Hopt|Hopt].
  2:{ rewrite (@run_bad_optimizer T c seed py1 np1 tc1 f p g_torch Ss g_py _
                 Hact Hinit HSs Hopt).
      cbn [snd info subtasks_stored_state info_Ss set_Ss].
      repeat (split; [reflexivity|]).
      intros Hdepth Hlr.
      rewrite (@make_optimizer_ok (n_tasks c + n c) (width c) (depth c) f (lr c) Hdepth Hlr)
        in Hopt.
      discriminate. }
  rewrite (@run_reaches_loop T c seed py1 np1 tc1 f p g_torch Ss g_py Hact Hinit HSs Hopt).
  destruct (steps c) as [|m] eqn:Hsteps.
  { cbn; repeat (split; [reflexivity|]); intros; lia. }
  cbn [seq].
  set (s0 := ready_state T c seed (build_layers (n_tasks c + n c) (width c) (depth c) f)
               p g_py g_torch Ss).
  destruct (@run_step_0 T c Ss s0 [] eq_refl eq_refl)
    as (e & s' & Hstep & _ & _ & _ & Hframe & _).
  rewrite (@forM_first_raises _ _ _ _ _ _ _ _ Hstep); cbn [fst snd].
  destruct Hframe as (_ & _ & HSs' & _).
  rewrite HSs'; repeat (split; [reflexivity|]).
  intros _ _ _ Hlf Hn Ha.
  destruct (@draw_composition_succeeds (alpha c) (n_tasks c) (test_points c)
              {| tape := np_random_seed T seed; pos := 0 |} Hn Ha)
    as (codes & sizes & Hdraw).
  destruct (@draw_composition_succeeds (alpha c) (n_tasks c) (batch_size c)
              (advance (test_points c) {| tape := np_random_seed T seed; pos := 0 |}) Hn Ha)
    as (codes' & sizes' & Hdraw').
  eexists codes, sizes, _, codes', sizes', _.
  split; [exact Hdraw|].
  assert (Hev : run_step T c Ss 0 s0 = evaluate T c Ss 0 s0).
  { unfold run_step, bind, lift, py_mod; cbv beta.
    destruct (log_freq c) as [|lf]; [lia|].
    cbn [Nat.eqb]; rewrite Nat.Div0.mod_0_l; cbn [Nat.eqb].
    destruct (@evaluate_unbound_loss T c Ss 0 s0 [] eq_refl eq_refl) as (e0 & s1 & E0 & _).
    now rewrite E0. }
  destruct (@evaluate_first_draw T c Ss 0 s0 [] codes sizes _ eq_refl eq_refl Hdraw)
    as (e1 & s1 & Hev1 & _ & Hhist & Hnp).
  rewrite Hev, Hev1 in Hstep; inversion Hstep; subst e1 s1.
  repeat (split; [assumption|]).
  split; [exact Hdraw'|].
  intros Ss' s Hs; rewrite <- Hs in Hdraw'.
  destruct (@train_first_draw T c Ss' 0 s codes' sizes' _ Hdraw') as (rest & Hrest & _).
  eauto.
Qed.

Lemma same_seed_same_run_witness :
  let c := small_config 3 in
  let out1 := run toy_torch c 0 (initial_state toy_torch idle idle idle) in
  let out2 := run toy_torch c 0
                (initial_state toy_torch
                   {| tape := fun i => 7 * i + 1; pos := 5 |}
                   {| tape := fun i => i * i; pos := 2 |}
                   {| tape := fun _ => 3; pos := 9 |}) in
  exists Ss codes sizes codes' sizes' rest,
    info_Ss (info (snd out1)) = Some Ss /\
    info_Ss (info (snd out2)) = Some Ss /\
    history (snd out1) = [EvaluationBatch 0 codes sizes] /\
    history (snd out2) = [EvaluationBatch 0 codes sizes] /\
    history (snd (train toy_torch c Ss 0 (snd out1)))
    = history (snd out1) ++ TrainingBatch 0 codes' sizes' :: rest.
Proof.
  cbv zeta.
  destruct (@same_seed_same_run toy_torch (small_config 3) 0 idle idle idle
              {| tape := fun i => 7 * i + 1; pos := 5 |}
              {| tape := fun i => i * i; pos := 2 |}
              {| tape := fun _ => 3; pos := 9 |}) as (_ & _ & _ & H).
  destruct (H ReLU eq_refl) as (Ss & g_py & _ & H1 & H2 & H3); [cbn; lia|].
  destruct H3 as (codes & sizes & g & codes' & sizes' & g' & _ & H4 & H5 & H6 & _ & _ & H7);
    [cbn; lia | reflexivity | cbn; lia | cbn; lia | cbn; lia | reflexivity |].
  destruct (H7 Ss _ H6) as (rest & H8).
  exists Ss, codes, sizes, codes', sizes', rest; repeat split; assumption.
Defined.

(** ** The evaluation period *)

Lemma default_log_freq_is_zero steps :
  steps < 1000 -> log_freq (cfg_with_steps steps) = 0.
Proof.
  intros H; cbn [log_freq cfg_with_steps]; now apply Nat.div_small.
Qed.

(** A run of zero steps never evaluates the trigger and completes,
    whatever the period. *)
Remark zero_steps_run_completes T c seed py np tc f :
  resolve_activation (activation c) = Ok f ->
  k c <= n c ->
  1 <= depth c ->
  Qle_bool 0 (lr c) = true ->
  steps c = 0 ->
  fst (run T c seed (initial_state T py np tc)) = Ok tt.
Proof.
  intros Hact Hk Hdepth Hlr Hsteps.
  pose proof (@make_optimizer_ok (n_tasks c + n c) (width c) (depth c) f (lr c) Hdepth Hlr)
    as Hopt.
  destruct (init_params T (build_layers (n_tasks c + n c) (width c) (depth c) f)
              {| tape := torch_manual_seed T seed; pos := 0 |}) as [p g_torch] eqn:Hinit.
  destruct (@make_Ss_ok (n c) (k c) (n_tasks c)
              {| tape := random_seed T seed; pos := 0 |} Hk) as (Ss & g_py & HSs & _).
  rewrite (@run_reaches_loop T c seed py np tc f p g_torch Ss g_py Hact Hinit HSs Hopt).
  now rewrite Hsteps.
Qed.

(** [C10] The evaluation trigger divides by [log_freq] unguarded.  For a
    configuration that passes the setup (recognized activation, [k <= n],
    at least one layer and a learning rate that is not negative, so that
    the optimizer is created) and has at least one step, [log_freq = 0] --
    which is what the default [steps // 1000] gives whenever
    [steps < 1000] -- makes the run stop at step 0 with
    [ZeroDivisionError]: in the state the setup left, with every series
    empty, no batch drawn and no training step done. *)
Theorem zero_log_freq_fails_at_step_0 T c seed py np tc f :
  resolve_activation (activation c) = Ok f ->
  k c <= n c ->
  1 <= depth c ->
  Qle_bool 0 (lr c) = true ->
  1 <= steps c ->
  log_freq c = 0 \/ (steps c < 1000 /\ log_freq c = steps c / 1000) ->
  let out := run T c seed (initial_state T py np tc) in
  log_freq c = 0 /\
  fst out = Raise ZeroDivisionError /\
  history (snd out) = [] /\
  loss (snd out) = None /\
  exists Ss p g_py g_torch,
    snd out = ready_state T c seed (build_layers (n_tasks c + n c) (width c) (depth c) f)
                p g_py g_torch Ss.
Proof.
  intros Hact Hk Hdepth Hlr Hsteps Hlf; cbv zeta.
  assert (Hzero : log_freq c = 0)
    by (destruct Hlf as [|[Hlt ->]]; [assumption | now apply Nat.div_small]).
  pose proof (@make_optimizer_ok (n_tasks c + n c) (width c) (depth c) f (lr c) Hdepth Hlr)
    as Hopt.
  destruct (init_params T (build_layers (n_tasks c + n c) (width c) (depth c) f)
              {| tape := torch_manual_seed T seed; pos := 0 |}) as [p g_torch] eqn:Hinit.
  destruct (@make_Ss_ok (n c) (k c) (n_tasks c)
              {| tape := random_seed T seed; pos := 0 |} Hk) as (Ss & g_py & HSs & _).
  rewrite (@run_reaches_loop T c seed py np tc f p g_torch Ss g_py Hact Hinit HSs Hopt).
  destruct (steps c) as [|m]; [lia|]; cbn [seq].
  destruct (@run_step_0 T c Ss
              (ready_state T c seed
                 (build_layers (n_tasks c + n c) (width c) (depth c) f)
                 p g_py g_torch Ss) [] eq_refl eq_refl)
    as (e & s' & E & _ & _ & _ & _ & _ & _ & Hz).
  destruct (Hz Hzero) as [-> ->].
  rewrite (@forM_first_raises _ _ _ _ _ _ _ _ E); cbn [fst snd].
  repeat split; eauto.
Qed.

Lemma zero_log_freq_fails_at_step_0_witness :
  let c := cfg_with_steps 500 in
  let out := run toy_torch c 0 (initial_state toy_torch idle idle idle) in
  log_freq c = 0 /\
  fst out = Raise ZeroDivisionError /\
  history (snd out) = [] /\
  loss (snd out) = None /\
  exists Ss p g_py g_torch,
    snd out = ready_state toy_torch c 0
                (build_layers (n_tasks c + n c) (width c) (depth c) ReLU)
                p g_py g_torch Ss.
Proof.
  apply (@zero_log_freq_fails_at_step_0 toy_torch (cfg_with_steps 500) 0 idle idle idle ReLU).
  - reflexivity.
  - cbn [k n cfg_with_steps]; lia.
  - cbn [depth cfg_with_steps]; lia.
  - reflexivity.
  - cbn [steps cfg_with_steps]; lia.
  - right; cbn [steps log_freq cfg_with_steps]; split; [lia | reflexivity].
Defined.

(** When the optimizer cannot be created the run stops before the loop,
    whatever the period: with no layer ([depth = 0]) or a negative learning
    rate it raises [ValueError] at line 172, after the Subtask Set is
    stored and before any metric series exists. *)
Lemma run_without_optimizer T c seed py np tc f :
  resolve_activation (activation c) = Ok f ->
  k c <= n c ->
  depth c = 0 \/ Qle_bool 0 (lr c) = false ->
  let out := run T c seed (initial_state T py np tc) in
  fst out = Raise ValueError /\
  log_steps (info (snd out)) = None /\
  exists Ss, info_Ss (info (snd out)) = Some Ss.
Proof.
  intros Hact Hk Hbad; cbv zeta.
  destruct (init_params T (build_layers (n_tasks c + n c) (width c) (depth c) f)
              {| tape := torch_manual_seed T seed; pos := 0 |}) as [p g_torch] eqn:Hinit.
  destruct (@make_Ss_ok (n c) (k c) (n_tasks c)
              {| tape := random_seed T seed; pos := 0 |} Hk) as (Ss & g_py & HSs & _).
  assert (Hopt : make_optimizer (build_layers (n_tasks c + n c) (width c) (depth c) f) (lr c)
                 = Raise ValueError).
  { unfold make_optimizer; destruct Hbad as [Hd|Hlr].
    - rewrite Hd; cbn; destruct (negb (Qle_bool 0 (lr c))); reflexivity.
    - now rewrite Hlr. }
  rewrite (@run_bad_optimizer T c seed py np tc f p g_torch Ss g_py _ Hact Hinit HSs Hopt).
  cbn; eauto.
Qed.

(** * Further properties of the script *)

(** ** [get_batch] as a function of its requests *)

Lemma get_batch_step_exact n_tasks n grp X Y r g :
  group_ok n_tasks n grp = true ->
  length X = length Y ->
  group_size grp <= r ->
  get_batch_step n_tasks n (acc_of (n_tasks + n) X Y r) grp g
  = (Ok (acc_of (n_tasks + n)
           (X ++ map (app (one_hot n_tasks (snd grp))) (bits_of g (group_size grp) n))
           (Y ++ map (parity (fst (fst grp))) (bits_of g (group_size grp) n))
           (r - group_size grp)),
     if group_size grp =? 0 then g else advance (group_size grp * n) g).
Proof.
  destruct grp as [[S_ size] code]; unfold group_ok, group_size.
  cbn [fst snd]; intros Hok HXY Hr.
  destruct size as [|size'].
  - cbn [Nat.eqb bits_of seq map]; unfold get_batch_step; cbn [Nat.ltb Nat.leb].
    unfold ret; now rewrite !app_nil_r, Nat.sub_0_r.
  - set (size := S size') in *.
    simpl in Hok; apply andb_prop in Hok as [HS Hcode].
    pose proof (bits_of_length g size n) as HB.
    change (size =? 0) with false; cbv iota.
    unfold get_batch_step.
    change (0 <? size) with true; cbv iota.
    unfold bind, lift, ret; cbv beta; rewrite randint_eq.
    set (B := bits_of g size n) in *.
    unfold index_columns, set_column; rewrite HS, Hcode.
    replace (sum_mod2 (map (fun row => map (fun s => nth s row 0) S_) B))
      with (map (parity S_) B)
      by (unfold sum_mod2; rewrite map_map; reflexivity).
    replace (cat1 (map (set_nth code 1) (zeros2 size n_tasks)) B)
      with (map (app (one_hot n_tasks code)) B)
      by (rewrite <- HB; symmetry; apply cat1_one_hot).
    set (XB := map (app (one_hot n_tasks code)) B).
    set (YB := map (parity S_) B).
    assert (HXB : length XB = size) by (unfold XB; now rewrite length_map).
    assert (HYB : length YB = size) by (unfold YB; now rewrite length_map).
    unfold acc_of, zeros2, zeros1; cbn [batch_x batch_y start_i].
    rewrite (@assign_rows_fresh _ X XB) by (auto; lia).
    rewrite (@assign_rows_fresh _ Y YB) by (auto; lia).
    rewrite length_app, HXB; reflexivity.
Qed.

Lemma generated_lengths n_tasks n gs : forall g,
  length (fst (fst (generated n_tasks n gs g))) = list_sum (map group_size gs) /\
  length (snd (fst (generated n_tasks n gs g))) = list_sum (map group_size gs).
Proof.
  induction gs as [|grp gs IH]; intros g; cbn [generated]; [split; reflexivity|].
  specialize (IH (if group_size grp =? 0 then g else advance (group_size grp * n) g)).
  destruct (generated n_tasks n gs _) as [[X Y] g']; cbn [fst snd map] in *.
  change (list_sum (group_size grp :: map group_size gs))
    with (group_size grp + list_sum (map group_size gs)).
  rewrite !length_app, !length_map, bits_of_length; lia.
Qed.

(** The loop computes what [generated] describes. *)
Lemma get_batch_loop_exact n_tasks n gs : forall X Y r g,
  forallb (group_ok n_tasks n) gs = true ->
  length X = length Y ->
  list_sum (map group_size gs) <= r ->
  foldM (get_batch_step n_tasks n) gs (acc_of (n_tasks + n) X Y r) g
  = (Ok (acc_of (n_tasks + n)
           (X ++ fst (fst (generated n_tasks n gs g)))
           (Y ++ snd (fst (generated n_tasks n gs g)))
           (r - list_sum (map group_size gs))),
     snd (generated n_tasks n gs g)).
Proof.
  induction gs as [|grp gs IH]; intros X Y r g Hok HXY Hr.
  - cbn; unfold ret; now rewrite !app_nil_r, Nat.sub_0_r.
  - simpl in Hok, Hr; apply andb_prop in Hok as [Hgrp Hgs].
    cbn [foldM]; unfold bind at 1.
    rewrite get_batch_step_exact by (auto; lia).
    rewrite IH by (auto; rewrite ?length_app, ?length_map, ?bits_of_length; lia).
    cbn [generated map list_sum fold_right].
    destruct (generated n_tasks n gs _) as [[X' Y'] g']; cbn [fst snd].
    now rewrite <- !app_assoc, Nat.sub_add_distr.
Qed.

Lemma get_batch_exact n_tasks n Ss codes sizes g :
  forallb (group_ok n_tasks n) (zip3 Ss sizes codes) = true ->
  get_batch n_tasks n Ss codes sizes g
  = (Ok (fst (fst (generated n_tasks n (zip3 Ss sizes codes) g))
           ++ zeros2 (list_sum sizes - list_sum (map group_size (zip3 Ss sizes codes)))
                (n_tasks + n),
         snd (fst (generated n_tasks n (zip3 Ss sizes codes) g))
           ++ zeros1 (list_sum sizes - list_sum (map group_size (zip3 Ss sizes codes)))),
     snd (generated n_tasks n (zip3 Ss sizes codes) g)).
Proof.
  intros Hok; unfold get_batch, bind, ret.
  change {| batch_x := zeros2 (list_sum sizes) (n_tasks + n);
            batch_y := zeros1 (list_sum sizes); start_i := 0 |}
    with (acc_of (n_tasks + n) [] [] (list_sum sizes)).
  rewrite get_batch_loop_exact by (auto; apply zip3_sizes_le).
  reflexivity.
Qed.

Lemma group_ok_spec n_tasks n grp :
  group_ok n_tasks n grp = true <-> request_in_range n_tasks n grp.
Proof.
  unfold group_ok, request_in_range.
  rewrite orb_true_iff, andb_true_iff, Nat.eqb_eq, Nat.ltb_lt, forallb_forall, Forall_forall.
  split; intros [H|[H1 H2]]; auto; right; split; auto;
    intros s Hs; apply Nat.ltb_lt; auto.
Qed.

Lemma groups_ok_spec n_tasks n gs :
  forallb (group_ok n_tasks n) gs = true <-> Forall (request_in_range n_tasks n) gs.
Proof.
  rewrite forallb_forall, Forall_forall.
  split; intros H grp Hin; apply group_ok_spec; auto.
Qed.

Lemma get_batch_ok_inv n_tasks n Ss codes sizes g batch g' :
  get_batch n_tasks n Ss codes sizes g = (Ok batch, g') ->
  forallb (group_ok n_tasks n) (zip3 Ss sizes codes) = true.
Proof.
  intros E; destruct (forallb (group_ok n_tasks n) (zip3 Ss sizes codes)) eqn:Hok; auto.
  destruct (@get_batch_fail n_tasks n Ss codes sizes g Hok) as (g1 & E1); congruence.
Qed.

Lemma one_hot_bits n_tasks code : Forall (fun v => v < 2) (one_hot n_tasks code).
Proof.
  unfold one_hot; revert code; induction n_tasks as [|m IH]; intros [|code]; simpl;
    try constructor; try lia; auto.
  clear; induction m; simpl; constructor; auto.
Qed.

Lemma generated_rows n_tasks n gs : forall g,
  Forall (fun row => length row = n_tasks + n /\ Forall (fun v => v < 2) row)
    (fst (fst (generated n_tasks n gs g))) /\
  Forall (fun y => y < 2) (snd (fst (generated n_tasks n gs g))).
Proof.
  induction gs as [|grp gs IH]; intros g; cbn [generated]; [split; constructor|].
  specialize (IH (if group_size grp =? 0 then g else advance (group_size grp * n) g)).
  destruct (generated n_tasks n gs _) as [[X Y] g']; cbn [fst snd] in *.
  destruct IH as [IX IY]; split; apply Forall_app; split; auto.
  - apply Forall_forall; intros row Hrow.
    apply in_map_iff in Hrow as (bits & <- & Hbits).
    pose proof (bits_of_rows g (group_size grp) n) as HB.
    rewrite Forall_forall in HB; destruct (HB bits Hbits) as [Hlen Hb].
    rewrite length_app, one_hot_length, Hlen; split; auto.
    apply Forall_app; split; auto; apply one_hot_bits.
  - apply Forall_forall; intros y Hy.
    apply in_map_iff in Hy as (bits & <- & _).
    unfold parity; apply Nat.mod_upper_bound; lia.
Qed.


Lemma generated_app n_tasks n gs1 gs2 : forall g,
  generated n_tasks n (gs1 ++ gs2) g
  = let '(X1, Y1, g1) := generated n_tasks n gs1 g in
    let '(X2, Y2, g2) := generated n_tasks n gs2 g1 in
    (X1 ++ X2, Y1 ++ Y2, g2).
Proof.
  induction gs1 as [|grp gs1 IH]; intros g; cbn [generated app].
  - now destruct (generated n_tasks n gs2 g) as [[X2 Y2] g2].
  - rewrite IH.
    destruct (generated n_tasks n gs1 _) as [[X1 Y1] g1].
    destruct (generated n_tasks n gs2 g1) as [[X2 Y2] g2].
    now rewrite !app_assoc.
Qed.

Lemma zip3_app {A B C} (a1 a2 : list A) : forall (b1 b2 : list B) (c1 c2 : list C),
  length a1 = length b1 -> length c1 = length b1 ->
  zip3 (a1 ++ a2) (b1 ++ b2) (c1 ++ c2) = zip3 a1 b1 c1 ++ zip3 a2 b2 c2.
Proof.
  unfold zip3; induction a1 as [|x a1 IH]; intros [|y b1] b2 [|z c1] c2 H1 H2;
    simpl in *; try discriminate; auto.
  f_equal; apply IH; lia.
Qed.

(** [X1] [get_batch] returns a batch exactly when every request that
    [zip] pairs up is in range or asks for no row; otherwise it raises
    [IndexError].  A request with count zero is skipped whatever its code
    and positions, and so is a request that [zip] drops. *)
Theorem get_batch_fails_only_out_of_range n_tasks n Ss codes sizes g :
  (Forall (request_in_range n_tasks n) (zip3 Ss sizes codes) /\
   exists batch_x batch_y g',
     get_batch n_tasks n Ss codes sizes g = (Ok (batch_x, batch_y), g'))
  \/
  (~ Forall (request_in_range n_tasks n) (zip3 Ss sizes codes) /\
   exists g', get_batch n_tasks n Ss codes sizes g = (Raise IndexError, g')).
Proof.
  destruct (forallb (group_ok n_tasks n) (zip3 Ss sizes codes)) eqn:Hok.
  - left; split; [now apply groups_ok_spec|].
    rewrite get_batch_exact by assumption; eauto.
  - right; split; [|now apply get_batch_fail].
    intros H; apply groups_ok_spec in H; congruence.
Qed.

(** [X2] In a batch that [get_batch] returns, every input row has
    [n_tasks + n] entries, every entry is 0 or 1, there is one label per
    row and every label is 0 or 1. *)
Theorem get_batch_shape n_tasks n Ss codes sizes g batch_x batch_y g' :
  get_batch n_tasks n Ss codes sizes g = (Ok (batch_x, batch_y), g') ->
  length batch_x = length batch_y /\
  Forall (fun row => length row = n_tasks + n /\ Forall (fun v => v < 2) row) batch_x /\
  Forall (fun y => y < 2) batch_y.
Proof.
  intros E; pose proof (get_batch_ok_inv _ _ _ _ _ _ E) as Hok.
  rewrite get_batch_exact in E by assumption; inversion E; subst; clear E.
  destruct (generated_lengths n_tasks n (zip3 Ss sizes codes) g) as [LX LY].
  destruct (generated_rows n_tasks n (zip3 Ss sizes codes) g) as [RX RY].
  unfold zeros2, zeros1; rewrite !length_app, !repeat_length, LX, LY.
  repeat split; auto; apply Forall_app; split; auto; apply Forall_forall;
    intros x Hx; apply repeat_spec in Hx; subst.
  - rewrite repeat_length; split; auto.
    apply Forall_forall; intros v Hv; apply repeat_spec in Hv; lia.
  - lia.
Qed.

Lemma get_batch_shape_witness :
  let out := get_batch 3 4 [[0; 2]; [1; 3]; [3]] [2; 0; 1] [2; 0; 1]
               {| tape := fun i => i * i / 3; pos := 0 |} in
  let batch_x := [[0; 0; 1; 0; 0; 1; 1]; [0; 0; 1; 1; 0; 0; 0]; [0; 1; 0; 1; 1; 1; 0]] in
  let batch_y := [1; 1; 0] in
  length batch_x = length batch_y /\
  Forall (fun row => length row = 3 + 4 /\ Forall (fun v => v < 2) row) batch_x /\
  Forall (fun y => y < 2) batch_y.
Proof.
  apply (@get_batch_shape 3 4 [[0; 2]; [1; 3]; [3]] [2; 0; 1] [2; 0; 1]
           {| tape := fun i => i * i / 3; pos := 0 |} _ _
           {| tape := fun i => i * i / 3; pos := 12 |}).
  reflexivity.
Defined.

(** [X3] Rows that no request writes stay zero.  When [Ss] or [codes] is
    shorter than [sizes], [zip] drops the trailing counts, yet the batch is
    allocated for the sum of all counts: the rows beyond the generated ones
    are all-zero inputs, with an all-zero task channel, and carry label 0. *)
Theorem get_batch_unwritten_rows_are_zero n_tasks n Ss codes sizes g batch_x batch_y g' r :
  get_batch n_tasks n Ss codes sizes g = (Ok (batch_x, batch_y), g') ->
  length (rows_of (zip3 Ss sizes codes)) <= r < list_sum sizes ->
  nth_error batch_x r = Some (repeat 0 (n_tasks + n)) /\
  nth_error batch_y r = Some 0.
Proof.
  intros E [Hlo Hhi]; pose proof (get_batch_ok_inv _ _ _ _ _ _ E) as Hok.
  rewrite get_batch_exact in E by assumption; inversion E; subst; clear E.
  destruct (generated_lengths n_tasks n (zip3 Ss sizes codes) g) as [LX LY].
  rewrite rows_of_length in Hlo.
  unfold zeros2, zeros1; split.
  - rewrite nth_error_app2 by lia.
    rewrite nth_error_repeat by lia; reflexivity.
  - rewrite nth_error_app2 by lia.
    rewrite nth_error_repeat by lia; reflexivity.
Qed.

Lemma get_batch_unwritten_rows_are_zero_witness :
  nth_error [[0; 0; 1; 0; 0; 1; 1]; [0; 0; 1; 1; 0; 0; 0]; [0; 0; 0; 0; 0; 0; 0]] 2
  = Some (repeat 0 (3 + 4)) /\
  nth_error [1; 1; 0] 2 = Some 0.
Proof.
  apply (@get_batch_unwritten_rows_are_zero 3 4 [[0; 2]] [2; 0; 1] [2; 0; 1]
           {| tape := fun i => i * i / 3; pos := 0 |} _ _
           {| tape := fun i => i * i / 3; pos := 8 |} 2).
  - reflexivity.
  - simpl; lia.
Defined.



(** [X5] Batches compose: serving two aligned lists of requests in one
    call gives the batch of the first list followed by the batch of the
    second, the second being generated from the generator that the first
    call leaves. *)
Theorem get_batch_app n_tasks n Ss1 codes1 sizes1 Ss2 codes2 sizes2 g x1 y1 g1 x2 y2 g2 :
  length Ss1 = length sizes1 -> length codes1 = length sizes1 ->
  length Ss2 = length sizes2 -> length codes2 = length sizes2 ->
  get_batch n_tasks n Ss1 codes1 sizes1 g = (Ok (x1, y1), g1) ->
  get_batch n_tasks n Ss2 codes2 sizes2 g1 = (Ok (x2, y2), g2) ->
  get_batch n_tasks n (Ss1 ++ Ss2) (codes1 ++ codes2) (sizes1 ++ sizes2) g
  = (Ok (x1 ++ x2, y1 ++ y2), g2).
Proof.
  intros L1 L2 L3 L4 E1 E2.
  pose proof (get_batch_ok_inv _ _ _ _ _ _ E1) as Hok1.
  pose proof (get_batch_ok_inv _ _ _ _ _ _ E2) as Hok2.
  rewrite get_batch_exact in E1, E2 by assumption.
  rewrite (@zip3_sizes_eq Ss1 sizes1 codes1 L1 L2), Nat.sub_diag in E1.
  rewrite (@zip3_sizes_eq Ss2 sizes2 codes2 L3 L4), Nat.sub_diag in E2.
  unfold zeros2, zeros1 in E1, E2; cbn [repeat] in E1, E2; rewrite !app_nil_r in E1, E2.
  assert (Hok : forallb (group_ok n_tasks n)
                  (zip3 (Ss1 ++ Ss2) (sizes1 ++ sizes2) (codes1 ++ codes2)) = true)
    by (rewrite zip3_app, forallb_app, Hok1, Hok2 by assumption; reflexivity).
  rewrite get_batch_exact by assumption.
  assert (Ha : length (Ss1 ++ Ss2) = length (sizes1 ++ sizes2))
    by (rewrite !length_app; lia).
  assert (Hb : length (codes1 ++ codes2) = length (sizes1 ++ sizes2))
    by (rewrite !length_app; lia).
  rewrite (@zip3_sizes_eq _ _ _ Ha Hb), Nat.sub_diag.
  unfold zeros2, zeros1; cbn [repeat]; rewrite !app_nil_r.
  rewrite zip3_app, generated_app by assumption.
  destruct (generated n_tasks n (zip3 Ss1 sizes1 codes1) g) as [[X1 Y1] h1].
  cbn [fst snd] in E1; inversion E1; subst; clear E1.
  destruct (generated n_tasks n (zip3 Ss2 sizes2 codes2) g1) as [[X2 Y2] h2].
  cbn [fst snd] in E2; inversion E2; subst; reflexivity.
Qed.

Lemma get_batch_app_witness :
  get_batch 3 4 ([[0; 2]; [1; 3]] ++ [[3]; [0; 1]]) ([2; 0] ++ [1; 1]) ([2; 1] ++ [1; 2])
    {| tape := fun i => i * i / 3; pos := 0 |}
  = (Ok ([[0; 0; 1; 0; 0; 1; 1]; [0; 0; 1; 1; 0; 0; 0]; [1; 0; 0; 1; 1; 1; 0]]
         ++ [[0; 1; 0; 0; 0; 1; 1]; [0; 1; 0; 1; 0; 0; 0]; [0; 1; 0; 1; 1; 1; 0]],
         [1; 1; 1] ++ [1; 1; 0]),
     {| tape := fun i => i * i / 3; pos := 24 |}).
Proof.
  apply (@get_batch_app 3 4 [[0; 2]; [1; 3]] [2; 0] [2; 1] [[3]; [0; 1]] [1; 1] [1; 2]
           {| tape := fun i => i * i / 3; pos := 0 |} _ _
           {| tape := fun i => i * i / 3; pos := 12 |}); reflexivity.
Defined.

(** ** The histogram of a draw *)

Lemma hist_incr_NoDup s hist :
  NoDup (map fst hist) -> NoDup (map fst (hist_incr s hist)).
Proof.
  induction hist as [|[key v] hist IH]; simpl; intros H.
  - constructor; auto.
  - inversion H as [|? ? Hnotin Hnd]; subst.
    destruct (key =? s) eqn:E; simpl; constructor; auto.
    rewrite hist_incr_keys; intros [->|Hin]; auto.
    rewrite Nat.eqb_refl in E; discriminate.
Qed.

Lemma hist_get_incr c s hist :
  hist_get c (hist_incr s hist) = hist_get c hist + (if c =? s then 1 else 0).
Proof.
  induction hist as [|[key v] hist IH]; cbn [hist_incr hist_get].
  - destruct (Nat.eqb_spec s c), (Nat.eqb_spec c s); subst; try lia; congruence.
  - destruct (Nat.eqb_spec key s); cbn [hist_get].
    + subst; destruct (Nat.eqb_spec s c), (Nat.eqb_spec c s); subst; try lia; congruence.
    + destruct (Nat.eqb_spec key c); auto.
      subst; destruct (Nat.eqb_spec c s); subst; try lia; congruence.
Qed.

Lemma hist_values_incr s hist :
  list_sum (map snd (hist_incr s hist)) = S (list_sum (map snd hist)).
Proof.
  induction hist as [|[key v] hist IH]; simpl; auto.
  destruct (key =? s); simpl; lia.
Qed.

Lemma fold_hist_incr samples : forall hist,
  NoDup (map fst hist) ->
  let hist' := fold_left (fun h s => hist_incr s h) samples hist in
  NoDup (map fst hist') /\
  (forall c, hist_get c hist' = hist_get c hist + count_occ Nat.eq_dec samples c) /\
  list_sum (map snd hist') = list_sum (map snd hist) + length samples.
Proof.
  induction samples as [|s samples IH]; intros hist Hnd; cbn [fold_left].
  - cbn; repeat split; auto.
  - destruct (IH (hist_incr s hist) (hist_incr_NoDup s hist Hnd)) as (I1 & I2 & I3).
    cbv zeta; repeat split; auto.
    + intros c; rewrite I2, hist_get_incr; cbn [count_occ].
      destruct (Nat.eq_dec s c) as [->|Hne].
      * rewrite Nat.eqb_refl; lia.
      * replace (c =? s) with false by (symmetry; apply Nat.eqb_neq; auto); lia.
    + rewrite I3, hist_values_incr; simpl; lia.
Qed.

Lemma hist_get_keys hist :
  NoDup (map fst hist) ->
  map (fun c => hist_get c hist) (map fst hist) = map snd hist.
Proof.
  induction hist as [|[key v] hist IH]; simpl; intros H; auto.
  inversion H as [|? ? Hnotin Hnd]; subst.
  rewrite Nat.eqb_refl; f_equal.
  rewrite <- IH by assumption; apply map_ext_in; intros c Hc.
  destruct (key =? c) eqn:E; auto.
  apply Nat.eqb_eq in E; subst; contradiction.
Qed.

Lemma draw_composition_eq alpha n_tasks m g :
  1 <= n_tasks -> Qle_bool 0 alpha = true ->
  draw_composition alpha n_tasks m g
  = (Ok (map fst (histogram (ranks_of g n_tasks m)),
         map (fun c => hist_get c (histogram (ranks_of g n_tasks m)))
           (map fst (histogram (ranks_of g n_tasks m)))),
     advance m g).
Proof.
  intros Hn Ha; unfold draw_composition, zipfian_rvs, bind, ret.
  replace (n_tasks =? 0) with false by (symmetry; apply Nat.eqb_neq; lia).
  rewrite Ha; reflexivity.
Qed.

Lemma draw_composition_histogram alpha n_tasks m g :
  1 <= n_tasks -> Qle_bool 0 alpha = true ->
  exists codes sizes,
    draw_composition alpha n_tasks m g = (Ok (codes, sizes), advance m g) /\
    NoDup codes /\
    (forall c, In c codes <-> In c (ranks_of g n_tasks m)) /\
    sizes = map (count_occ Nat.eq_dec (ranks_of g n_tasks m)) codes /\
    Forall (fun size => 1 <= size) sizes /\
    list_sum sizes = m.
Proof.
  intros Hn Ha.
  destruct (@fold_hist_incr (ranks_of g n_tasks m) [] (NoDup_nil _)) as (H1 & H2 & H3).
  cbv zeta in H1, H2, H3; fold (histogram (ranks_of g n_tasks m)) in H1, H2, H3.
  assert (Hkeys : forall c, In c (map fst (histogram (ranks_of g n_tasks m)))
                            <-> In c (ranks_of g n_tasks m)).
  { intros c; unfold histogram; rewrite histogram_keys; simpl; intuition. }
  assert (Hsizes : map (fun c => hist_get c (histogram (ranks_of g n_tasks m)))
                     (map fst (histogram (ranks_of g n_tasks m)))
                   = map (count_occ Nat.eq_dec (ranks_of g n_tasks m))
                       (map fst (histogram (ranks_of g n_tasks m))))
    by (apply map_ext; intros c; rewrite H2; reflexivity).
  eexists _, _; split; [now apply draw_composition_eq|].
  repeat split; auto; try (now apply Hkeys).
  - rewrite Hsizes; apply Forall_forall; intros size Hsize.
    apply in_map_iff in Hsize as (c & <- & Hc).
    apply Hkeys in Hc; apply (count_occ_In Nat.eq_dec) in Hc; lia.
  - rewrite hist_get_keys, H3 by assumption.
    unfold ranks_of; rewrite length_map, length_seq; reflexivity.
Qed.

(** [X6] For [n_tasks >= 1] and [alpha >= 0] a draw of [m] ranks
    succeeds and reads [m] raw draws of numpy's generator.  Its codes are
    the distinct ranks drawn, each listed once; the size of a code is the
    number of times its rank was drawn, at least 1; and the sizes add up to
    [m]. *)
Theorem draw_composition_counts_the_draw alpha n_tasks m g :
  1 <= n_tasks -> Qle_bool 0 alpha = true ->
  exists codes sizes,
    draw_composition alpha n_tasks m g = (Ok (codes, sizes), advance m g) /\
    NoDup codes /\
    (forall c, In c codes <-> In c (ranks_of g n_tasks m)) /\
    sizes = map (count_occ Nat.eq_dec (ranks_of g n_tasks m)) codes /\
    Forall (fun size => 1 <= size) sizes /\
    list_sum sizes = m.
Proof.
  exact (@draw_composition_histogram alpha n_tasks m g).
Qed.

Lemma draw_composition_counts_the_draw_witness :
  exists codes sizes,
    draw_composition (15 # 10) 4 8 {| tape := counting_tape 2; pos := 0 |}
    = (Ok (codes, sizes), advance 8 {| tape := counting_tape 2; pos := 0 |}) /\
    NoDup codes /\
    (forall c, In c codes
               <-> In c (ranks_of {| tape := counting_tape 2; pos := 0 |} 4 8)) /\
    sizes = map (count_occ Nat.eq_dec
                   (ranks_of {| tape := counting_tape 2; pos := 0 |} 4 8)) codes /\
    Forall (fun size => 1 <= size) sizes /\
    list_sum sizes = 8.
Proof.
  apply (@draw_composition_counts_the_draw (15 # 10) 4 8
           {| tape := counting_tape 2; pos := 0 |}).
  - lia.
  - reflexivity.
Defined.

Lemma filter_filter {A} (P Q : A -> bool) l :
  filter P (filter Q l) = filter (fun a => Q a && P a) l.
Proof.
  induction l as [|a l IH]; simpl; auto.
  destruct (Q a); simpl; [destruct (P a)|]; now rewrite IH.
Qed.

Lemma hist_incr_key_order s hist :
  map fst (hist_incr s hist)
  = if existsb (Nat.eqb s) (map fst hist) then map fst hist else map fst hist ++ [s].
Proof.
  induction hist as [|[key v] hist IH]; cbn [hist_incr map fst existsb app]; auto.
  rewrite (Nat.eqb_sym s key).
  destruct (key =? s); cbn [orb map fst]; auto.
  rewrite IH; destruct (existsb (Nat.eqb s) (map fst hist)); reflexivity.
Qed.

Lemma histogram_key_order samples : forall hist,
  map fst (fold_left (fun h s => hist_incr s h) samples hist)
  = map fst hist
    ++ filter (fun c => negb (existsb (Nat.eqb c) (map fst hist)))
         (first_occurrences samples).
Proof.
  induction samples as [|s samples IH]; intros hist; cbn [fold_left first_occurrences filter].
  - now rewrite app_nil_r.
  - rewrite IH, hist_incr_key_order.
    destruct (existsb (Nat.eqb s) (map fst hist)) eqn:Hs; cbn [negb].
    + f_equal; rewrite filter_filter; apply filter_ext_in; intros c _.
      destruct (Nat.eqb_spec c s) as [->|Hne]; cbn [negb andb]; auto.
      now rewrite Hs.
    + rewrite <- app_assoc; cbn [app]; do 2 f_equal.
      rewrite filter_filter; apply filter_ext; intros c.
      rewrite existsb_app; cbn [existsb]; rewrite orb_false_r, negb_orb.
      now rewrite andb_comm.
Qed.

(** [X7] The codes of a composition are listed in the order in which
    their ranks first occur in the draw, which is therefore the order of
    the blocks of the batch. *)
Theorem draw_composition_codes_in_draw_order alpha n_tasks m g :
  1 <= n_tasks -> Qle_bool 0 alpha = true ->
  exists sizes,
    draw_composition alpha n_tasks m g
    = (Ok (first_occurrences (ranks_of g n_tasks m), sizes), advance m g).
Proof.
  intros Hn Ha; rewrite draw_composition_eq by assumption.
  unfold histogram at 1; rewrite histogram_key_order; cbn [map app existsb negb].
  assert (F : forall l : list nat, filter (fun _ => true) l = l)
    by (induction l as [|a l IHl]; simpl; congruence).
  rewrite F; eauto.
Qed.

Lemma draw_composition_codes_in_draw_order_witness :
  exists sizes,
    draw_composition (15 # 10) 4 8 {| tape := counting_tape 2; pos := 0 |}
    = (Ok (first_occurrences (ranks_of {| tape := counting_tape 2; pos := 0 |} 4 8), sizes),
       advance 8 {| tape := counting_tape 2; pos := 0 |}).
Proof.
  apply (@draw_composition_codes_in_draw_order (15 # 10) 4 8
           {| tape := counting_tape 2; pos := 0 |}).
  - lia.
  - reflexivity.
Defined.

(** ** From a draw to a batch *)

Lemma select_subtasks_ok Ss codes :
  Forall (fun c => c < length Ss) codes ->
  exists batch_Ss,
    select_subtasks Ss codes = Ok batch_Ss /\
    length batch_Ss = length codes /\
    Forall (fun S_ => In S_ Ss) batch_Ss.
Proof.
  unfold select_subtasks; induction 1 as [|c codes Hc _ IH]; cbn [mapR].
  - exists []; repeat split; constructor.
  - destruct IH as (l & E & HL & HI); rewrite E.
    unfold list_index; destruct (nth_error Ss c) as [S_|] eqn:En.
    + exists (S_ :: l); repeat split; simpl; auto.
      constructor; auto; eapply nth_error_In; eauto.
    + apply nth_error_None in En; lia.
Qed.

(** [X8] Lines 181-188 and 201-208 compose into a batch of exactly the
    requested size: when the draw holds no rank equal to [n_tasks], the
    composition is served from the Subtask Set without error and
    [get_batch] returns [m] input rows and [m] labels, every one of them
    generated for a drawn rank (no row is left unwritten). *)
Theorem zipfian_batch_has_m_rows alpha n_tasks n m Ss g_np g_torch :
  1 <= n_tasks -> Qle_bool 0 alpha = true ->
  length Ss = n_tasks ->
  Forall (Forall (fun s => s < n)) Ss ->
  Forall (fun rank => rank < n_tasks) (ranks_of g_np n_tasks m) ->
  exists codes sizes batch_Ss batch_x batch_y g',
    draw_composition alpha n_tasks m g_np = (Ok (codes, sizes), advance m g_np) /\
    select_subtasks Ss codes = Ok batch_Ss /\
    get_batch n_tasks n batch_Ss codes sizes g_torch = (Ok (batch_x, batch_y), g') /\
    length batch_x = m /\ length batch_y = m /\
    length (rows_of (zip3 batch_Ss sizes codes)) = m.
Proof.
  intros Hn Ha HL HS Hranks.
  destruct (@draw_composition_histogram alpha n_tasks m g_np Hn Ha)
    as (codes & sizes & Ed & _ & Hin & Hsizes & _ & Hsum).
  assert (Hcodes : Forall (fun c => c < n_tasks) codes).
  { apply Forall_forall; intros c Hc; apply Hin in Hc.
    rewrite Forall_forall in Hranks; auto. }
  destruct (@select_subtasks_ok Ss codes) as (batch_Ss & Es & HLb & HIb);
    [now rewrite HL|].
  assert (HSb : Forall (Forall (fun s => s < n)) batch_Ss).
  { apply Forall_forall; intros S_ HS_.
    rewrite Forall_forall in HIb, HS; auto. }
  assert (HLs : length sizes = length codes) by (rewrite Hsizes; apply length_map).
  assert (Hz : list_sum (map group_size (zip3 batch_Ss sizes codes)) = list_sum sizes)
    by (apply zip3_sizes_eq; lia).
  exists codes, sizes, batch_Ss.
  rewrite get_batch_exact by (now apply zip3_ok).
  destruct (generated_lengths n_tasks n (zip3 batch_Ss sizes codes) g_torch) as [LX LY].
  rewrite Hz in LX, LY.
  eexists _, _, _; repeat split; eauto.
  - unfold zeros2; rewrite length_app, repeat_length, Hz; lia.
  - unfold zeros1; rewrite length_app, repeat_length, Hz; lia.
  - rewrite rows_of_length, Hz; exact Hsum.
Qed.

Lemma zipfian_batch_has_m_rows_witness :
  exists codes sizes batch_Ss batch_x batch_y g',
    draw_composition (15 # 10) 4 3 {| tape := fun i => i mod 3; pos := 0 |}
    = (Ok (codes, sizes), advance 3 {| tape := fun i => i mod 3; pos := 0 |}) /\
    select_subtasks small_Ss codes = Ok batch_Ss /\
    get_batch 4 10 batch_Ss codes sizes idle = (Ok (batch_x, batch_y), g') /\
    length batch_x = 3 /\ length batch_y = 3 /\
    length (rows_of (zip3 batch_Ss sizes codes)) = 3.
Proof.
  apply (@zipfian_batch_has_m_rows (15 # 10) 4 10 3 small_Ss
           {| tape := fun i => i mod 3; pos := 0 |} idle).
  - lia.
  - reflexivity.
  - reflexivity.
  - unfold small_Ss; discharge_lists.
  - vm_compute; repeat constructor.
Defined.

(** ** The Subtask Set *)

(** [X9] For [k <= n] the Subtask Set is created without error and has
    [n_tasks] entries, each made of [k] pairwise distinct positions below
    [n]; two entries may coincide. *)
Theorem subtask_set_invariant n k n_tasks g :
  k <= n ->
  exists Ss g',
    make_Ss n k n_tasks g = (Ok Ss, g') /\
    length Ss = n_tasks /\
    Forall (fun S_ => length S_ = k /\ NoDup S_ /\ Forall (fun s => s < n) S_) Ss.
Proof.
  intros Hk; now apply make_Ss_ok.
Qed.

Lemma subtask_set_invariant_witness :
  exists Ss g',
    make_Ss 10 2 4 {| tape := counting_tape 0; pos := 0 |} = (Ok Ss, g') /\
    length Ss = 4 /\
    Forall (fun S_ => length S_ = 2 /\ NoDup S_ /\ Forall (fun s => s < 10) S_) Ss.
Proof.
  apply (@subtask_set_invariant 10 2 4 {| tape := counting_tape 0; pos := 0 |}); lia.
Defined.

(** ** The stack of layers *)

Lemma hidden_layers_length width f m : length (hidden_layers width f m) = 2 * m.
Proof.
  unfold hidden_layers; induction m as [|m IH]; simpl in *; lia.
Qed.

Lemma count_parameters_app l1 l2 :
  count_parameters (l1 ++ l2) = count_parameters l1 + count_parameters l2.
Proof.
  unfold count_parameters; now rewrite map_app, list_sum_app.
Qed.

Lemma count_parameters_hidden width f m :
  count_parameters (hidden_layers width f m) = m * (width * width + width).
Proof.
  unfold hidden_layers, count_parameters; induction m as [|m IH]; simpl in *; lia.
Qed.

(** [X10] With two layers or more the stack has [2 * depth - 1] modules:
    [depth] affine layers with the nonlinearity after each but the last;
    the first maps the input to [width], the inner ones [width] to [width]
    and the last [width] to the 2 logits. *)
Theorem build_layers_shape n_in width depth f :
  2 <= depth ->
  build_layers n_in width depth f
  = Linear n_in width :: Activation f
    :: hidden_layers width f (depth - 2) ++ [Linear width 2] /\
  affine_layers (build_layers n_in width depth f)
  = (n_in, width) :: repeat (width, width) (depth - 2) ++ [(width, 2)] /\
  length (affine_layers (build_layers n_in width depth f)) = depth /\
  length (build_layers n_in width depth f) = 2 * depth - 1.
Proof.
  intros H.
  assert (E : build_layers n_in width depth f
              = Linear n_in width :: Activation f
                :: hidden_layers width f (depth - 2) ++ [Linear width 2]).
  { rewrite build_layers_depth_ge_2 by assumption.
    destruct depth as [|[|m]]; try lia; simpl; now rewrite Nat.sub_0_r. }
  split; [exact E|]; split; [now apply build_layers_affine|]; split.
  - rewrite build_layers_affine by assumption.
    simpl; rewrite length_app, repeat_length; simpl; lia.
  - rewrite E; simpl; rewrite length_app, hidden_layers_length; simpl; lia.
Qed.

Lemma build_layers_shape_witness :
  build_layers 14 3 4 Tanh
  = Linear 14 3 :: Activation Tanh :: hidden_layers 3 Tanh (4 - 2) ++ [Linear 3 2] /\
  affine_layers (build_layers 14 3 4 Tanh)
  = (14, 3) :: repeat (3, 3) (4 - 2) ++ [(3, 2)] /\
  length (affine_layers (build_layers 14 3 4 Tanh)) = 4 /\
  length (build_layers 14 3 4 Tanh) = 2 * 4 - 1.
Proof.
  apply (@build_layers_shape 14 3 4 Tanh); lia.
Defined.

(** [X11] The parameter count recorded as [P]: nothing for an empty stack,
    one input layer for [depth = 1], and for [depth >= 2] the input layer,
    [depth - 2] inner layers and the output layer, each with its weights
    and biases. *)
Theorem count_parameters_build_layers n_in width depth f :
  count_parameters (build_layers n_in width depth f)
  = match depth with
    | 0 => 0
    | 1 => n_in * width + width
    | S (S m) => (n_in * width + width) + m * (width * width + width) + (width * 2 + 2)
    end.
Proof.
  destruct depth as [|[|m]].
  - reflexivity.
  - unfold count_parameters; simpl; lia.
  - rewrite build_layers_depth_ge_2 by lia; unfold learner_spec.
    change (Linear n_in width :: Activation f :: hidden_layers width f m ++ [Linear width 2])
      with ([Linear n_in width; Activation f] ++ hidden_layers width f m ++ [Linear width 2]).
    rewrite !count_parameters_app, count_parameters_hidden.
    unfold count_parameters; simpl; lia.
Qed.

(** ** Runs as a whole *)

(** [X12] No run completes a step.  With at least one step the run
    raises, at step 0 or before the loop; when it stops, no value has been
    bound to [loss] and the only batch that may have been drawn is the
    evaluation batch of step 0: no training batch is drawn and no optimizer
    update is made. *)
Theorem run_never_completes_a_step T c seed py np tc :
  1 <= steps c ->
  let out := run T c seed (initial_state T py np tc) in
  (exists e, fst out = Raise e) /\
  loss (snd out) = None /\
  (forall ev, In ev (history (snd out)) ->
              exists codes sizes, ev = EvaluationBatch 0 codes sizes).
Proof.
  intros Hsteps; cbv zeta.
  destruct (@every_run T c seed py np tc) as (H1 & _ & _ & _ & _ & _ & H2 & H3).
  cbv zeta in H1, H2, H3; repeat split; auto.
  intros ev Hin; destruct H3 as [E|(codes & sizes & E)]; rewrite E in Hin.
  - destruct Hin.
  - destruct Hin as [<-|[]]; eauto.
Qed.

Lemma run_never_completes_a_step_witness :
  let out := run toy_torch (small_config 3) 0 (initial_state toy_torch idle idle idle) in
  (exists e, fst out = Raise e) /\
  loss (snd out) = None /\
  (forall ev, In ev (history (snd out)) ->
              exists codes sizes, ev = EvaluationBatch 0 codes sizes).
Proof.
  apply (@run_never_completes_a_step toy_torch (small_config 3) 0 idle idle idle).
  simpl; lia.
Defined.

(** [X13] Every run that passes the activation check, however it ends,
    has built the model, logged the two debug messages and recorded [P],
    the parameter count of the stack, and [D = steps * batch_size]; the
    parameters it holds at the end are the initial ones. *)
Theorem run_records_P_and_D T c seed py np tc f :
  resolve_activation (activation c) = Ok f ->
  let layers := build_layers (n_tasks c + n c) (width c) (depth c) f in
  let s := snd (run T c seed (initial_state T py np tc)) in
  info_P (info s) = Some (count_parameters layers) /\
  info_D (info s) = Some (steps c * batch_size c) /\
  debug_log s = [CreatedModel; ModelHasParameters (count_parameters layers)] /\
  mlp s = Some (layers,
                fst (init_params T layers {| tape := torch_manual_seed T seed; pos := 0 |})).
Proof.
  intros Hact; cbv zeta.
  destruct (init_params T (build_layers (n_tasks c + n c) (width c) (depth c) f)
              {| tape := torch_manual_seed T seed; pos := 0 |}) as [p g_torch] eqn:Hinit.
  destruct (make_Ss (n c) (k c) (n_tasks c) {| tape := random_seed T seed; pos := 0 |})
    as [[Ss|e] g_py] eqn:HSs.
  2:{ rewrite (@run_bad_sample T c seed py np tc f p g_torch e g_py Hact Hinit HSs).
      cbn; auto. }
  destruct (make_optimizer_cases
              (build_layers (n_tasks c + n c) (width c) (depth c) f) (lr c)) as [Hopt|Hopt].
  2:{ rewrite (@run_bad_optimizer T c seed py np tc f p g_torch Ss g_py _ Hact Hinit HSs Hopt).
      cbn; auto. }
  rewrite (@run_reaches_loop T c seed py np tc f p g_torch Ss g_py Hact Hinit HSs Hopt).
  destruct (steps c) as [|m] eqn:Hsteps.
  - cbn; rewrite Hsteps; auto.
  - cbn [seq].
    destruct (@run_step_0 T c Ss
                (ready_state T c seed
                   (build_layers (n_tasks c + n c) (width c) (depth c) f)
                   p g_py g_torch Ss) [] eq_refl eq_refl)
      as (e & s' & E & _ & Hmlp & Hlog & Hframe & _).
    rewrite (@forM_first_raises _ _ _ _ _ _ _ _ E); cbn [fst snd].
    destruct Hframe as (F1 & F2 & _).
    rewrite F1, F2, Hmlp, Hlog; cbn; rewrite Hsteps; auto.
Qed.

Lemma run_records_P_and_D_witness :
  let c := small_config 3 in
  let layers := build_layers (n_tasks c + n c) (width c) (depth c) ReLU in
  let s := snd (run toy_torch c 0 (initial_state toy_torch idle idle idle)) in
  info_P (info s) = Some (count_parameters layers) /\
  info_D (info s) = Some (steps c * batch_size c) /\
  debug_log s = [CreatedModel; ModelHasParameters (count_parameters layers)] /\
  mlp s = Some (layers,
                fst (init_params toy_torch layers
                       {| tape := torch_manual_seed toy_torch 0; pos := 0 |})).
Proof.
  apply (@run_records_P_and_D toy_torch (small_config 3) 0 idle idle idle ReLU).
  reflexivity.
Defined.

(** ** What the steps of the loop change *)

Lemma evaluate_subtask_view T c Ss i (s : State T) :
  aggregate_view (snd (evaluate_subtask T c Ss i s)) = aggregate_view s.
Proof.
  unfold aggregate_view, learner_view, evaluate_subtask, append_info_subtask, read_info,
    bind, with_torch, modify, lift, read_local, ret; cbv beta zeta.
  repeat (split_head; cbn [torch_random mlp loss info history with_info
                           set_losses_subtasks set_accuracies_subtasks
                           losses_subtasks accuracies_subtasks] in *);
    reflexivity.
Qed.

(** [X14] An evaluation event is a read-only pass over the Learner:
    whether it completes or raises, it leaves the model and the optimizer
    state, the variable [loss], the debug log and the entries [P], [D],
    [Ss] and [log_steps] as they were, and adds to the history at most the
    composition of its own batch. *)
Theorem evaluate_is_read_only T c Ss step (s : State T) :
  let s' := snd (evaluate T c Ss step s) in
  learner_view s' = learner_view s /\
  (history s' = history s \/
   exists codes sizes, history s' = history s ++ [EvaluationBatch step codes sizes]).
Proof.
  unfold learner_view, evaluate, append_info, read_info, bind, with_np, with_torch,
    modify, lift, read_local, ret; cbv beta zeta.
  repeat (split_head; cbn [np_random torch_random mlp loss info history add_event
                           with_info set_accuracies set_losses accuracies losses] in *);
    try (cbn; split; eauto; fail).
  match goal with
  | |- context [forM_ ?l ?body ?s0] =>
      pose proof (@forM_invariant _ _
        (fun s' : State T =>
           learner_view s' = learner_view s0 /\ history s' = history s0) body l
        (fun a s1 Hs1 =>
           conj
             (eq_trans
                (f_equal (fun v => fst (fst (fst (fst v))))
                   (@evaluate_subtask_view T c Ss a s1))
                (proj1 Hs1))
             (eq_trans
                (f_equal (fun v => snd (fst (fst v)))
                   (@evaluate_subtask_view T c Ss a s1))
                (proj2 Hs1)))
        s0 (conj eq_refl eq_refl)) as [Hview Hhist]
  end.
  split.
  - etransitivity; [exact Hview | reflexivity].
  - rewrite Hhist; cbn; eauto.
Qed.

(** [X15] A training step never writes to [ex.info], to the debug log or
    to the generator of [random].  When it completes it has drawn one
    composition, bound [loss] to the loss of that batch and made exactly one
    optimizer update on the same layers; when it raises the parameters are
    those it started with. *)
Theorem train_effects T c Ss step (s : State T) :
  let out := train T c Ss step s in
  info (snd out) = info s /\
  debug_log (snd out) = debug_log s /\
  py_random (snd out) = py_random s /\
  match fst out with
  | Ok _ =>
      exists codes sizes batch_Ss x y_target g layers p y_pred l p',
        draw_composition (alpha c) (n_tasks c) (batch_size c) (np_random s)
        = (Ok (codes, sizes), np_random (snd out)) /\
        select_subtasks Ss codes = Ok batch_Ss /\
        get_batch (n_tasks c) (n c) batch_Ss codes sizes (torch_random s)
        = (Ok (x, y_target), g) /\
        mlp s = Some (layers, p) /\
        forward T layers p x = Ok y_pred /\
        loss_fn T y_pred y_target = Ok l /\
        optimizer_step T (lr c) layers p x y_target = Ok p' /\
        loss (snd out) = Some l /\
        mlp (snd out) = Some (layers, p') /\
        history (snd out)
        = history s ++ [TrainingBatch step codes sizes; OptimizerStep step]
  | Raise _ =>
      mlp (snd out) = mlp s /\
      (history (snd out) = history s \/
       exists codes sizes, history (snd out) = history s ++ [TrainingBatch step codes sizes])
  end.
Proof.
  unfold train, bind, with_np, with_torch, modify, lift, read_local, ret; cbv beta zeta.
  repeat (split_head; cbn [np_random torch_random mlp loss info history add_event
                           set_loss set_mlp fst snd] in *);
    cbn; repeat split; eauto.
  subst; do 11 eexists; repeat split; eauto.
  now rewrite <- app_assoc.
Qed.

(** ** The per-subtask series *)

Lemma dd_get_touch {V} j i (d : list (nat * list V)) :
  dd_get j (dd_touch i d) = dd_get j d.
Proof.
  induction d as [|[key l] d IH]; cbn [dd_touch dd_get].
  - destruct (i =? j); reflexivity.
  - destruct (key =? i) eqn:E; cbn [dd_get]; auto.
    now rewrite IH.
Qed.

Lemma dd_get_append {V} j i (v : V) (d : list (nat * list V)) :
  dd_get j (dd_append i v d) = if j =? i then dd_get i d ++ [v] else dd_get j d.
Proof.
  induction d as [|[key l] d IH]; cbn [dd_append dd_get].
  - destruct (Nat.eqb_spec i j), (Nat.eqb_spec j i); subst; simpl; congruence.
  - destruct (Nat.eqb_spec key i) as [->|Hki]; cbn [dd_get].
    + destruct (Nat.eqb_spec i j), (Nat.eqb_spec j i); subst; simpl; congruence.
    + rewrite IH.
      destruct (Nat.eqb_spec key j), (Nat.eqb_spec j i); subst; simpl; congruence.
Qed.

(** [X16] A probe that completes has generated a batch of
    [test_points_per_task] rows for subtask [i] alone, and has appended to
    the series of subtask [i] the loss and the accuracy of the Learner on
    that very batch; the series of the other subtasks are as they were. *)
Theorem evaluate_subtask_appends T c Ss i (s s' : State T) :
  evaluate_subtask T c Ss i s = (Ok tt, s') ->
  exists S_i x_i y_i layers p y_pred l labels a dl da dl' da',
    list_index Ss i = Ok S_i /\
    get_batch (n_tasks c) (n c) [S_i] [i] [test_points_per_task c] (torch_random s)
    = (Ok (x_i, y_i), torch_random s') /\
    mlp s = Some (layers, p) /\
    forward T layers p x_i = Ok y_pred /\
    loss_fn T y_pred y_i = Ok l /\
    argmax T y_pred = Ok labels /\
    py_truediv (count_matches labels y_i) (test_points_per_task c) = Ok a /\
    losses_subtasks (info s) = Some dl /\
    losses_subtasks (info s') = Some dl' /\
    accuracies_subtasks (info s) = Some da /\
    accuracies_subtasks (info s') = Some da' /\
    (forall j, dd_get j dl' = if j =? i then dd_get i dl ++ [l] else dd_get j dl) /\
    (forall j, dd_get j da' = if j =? i then dd_get i da ++ [a] else dd_get j da).
Proof.
  unfold evaluate_subtask, append_info_subtask, read_info,
    bind, with_torch, modify, lift, read_local, ret; cbv beta zeta.
  repeat (split_head; cbn [torch_random mlp loss info history with_info
                           set_losses_subtasks set_accuracies_subtasks
                           losses_subtasks accuracies_subtasks] in *);
    intros E; try discriminate.
  inversion E; subst; clear E.
  do 13 eexists; cbn; repeat split; eauto;
    intros j; rewrite dd_get_append, !dd_get_touch; reflexivity.
Qed.

Lemma evaluate_subtask_appends_witness :
  let c := small_config 3 in
  let s := small_state in
  let s' := snd (evaluate_subtask toy_torch c small_Ss 1 s) in
  exists S_i x_i y_i layers p y_pred l labels a dl da dl' da',
    list_index small_Ss 1 = Ok S_i /\
    get_batch (n_tasks c) (n c) [S_i] [1] [test_points_per_task c] (torch_random s)
    = (Ok (x_i, y_i), torch_random s') /\
    mlp s = Some (layers, p) /\
    forward toy_torch layers p x_i = Ok y_pred /\
    loss_fn toy_torch y_pred y_i = Ok l /\
    argmax toy_torch y_pred = Ok labels /\
    py_truediv (count_matches labels y_i) (test_points_per_task c) = Ok a /\
    losses_subtasks (info s) = Some dl /\
    losses_subtasks (info s') = Some dl' /\
    accuracies_subtasks (info s) = Some da /\
    accuracies_subtasks (info s') = Some da' /\
    (forall j, dd_get j dl' = if j =? 1 then dd_get 1 dl ++ [l] else dd_get j dl) /\
    (forall j, dd_get j da' = if j =? 1 then dd_get 1 da ++ [a] else dd_get j da).
Proof.
  apply (@evaluate_subtask_appends toy_torch (small_config 3) small_Ss 1 small_state).
  reflexivity.
Defined.

(** ** The experiment drivers *)

Lemma nth_error_seq_start len : forall start j,
  j < len -> nth_error (seq start len) j = Some (start + j).
Proof.
  induction len as [|len IH]; intros start [|j] H; simpl; try lia.
  - f_equal; lia.
  - rewrite IH by lia; f_equal; lia.
Qed.

Lemma nth_error_py_range start stop step j :
  j < length (py_range start stop step) ->
  nth_error (py_range start stop step) j = Some (start + Z.of_nat j * step)%Z.
Proof.
  unfold py_range; rewrite length_map, length_seq; intros H.
  erewrite map_nth_error; [reflexivity|].
  now rewrite nth_error_seq_start.
Qed.

Lemma list_index_spec {A} (l : list A) i :
  (i < length l /\ exists a, list_index l i = Ok a /\ nth_error l i = Some a) \/
  (length l <= i /\ list_index l i = Raise IndexError).
Proof.
  unfold list_index; destruct (nth_error l i) as [a|] eqn:E.
  - left; split; eauto; apply nth_error_Some; congruence.
  - right; split; auto; now apply nth_error_None.
Qed.

(** Python indexing: an index in [-len, len) selects an element, the
    negative ones counting from the end; any other raises [IndexError]. *)
Lemma py_index_spec {A} (l : list A) (i : Z) :
  let len := Z.of_nat (length l) in
  ((0 <= i < len)%Z /\ py_index l i = list_index l (Z.to_nat i) /\
   exists a, py_index l i = Ok a) \/
  ((- len <= i < 0)%Z /\ py_index l i = py_index l (i + len) /\
   exists a, py_index l i = Ok a) \/
  ((i < - len \/ len <= i)%Z /\ py_index l i = Raise IndexError).
Proof.
  cbv zeta; unfold py_index.
  destruct (Z.ltb_spec i 0) as [Hneg|Hpos].
  - destruct (Z.ltb_spec (i + Z.of_nat (length l)) 0) as [Hlow|Hin].
    + right; right; split; auto; lia.
    + right; left; split; [lia|].
      replace (i + Z.of_nat (length l) <? 0)%Z with false by (symmetry; apply Z.ltb_ge; lia).
      split; auto.
      destruct (list_index_spec l (Z.to_nat (i + Z.of_nat (length l))))
        as [(_ & a & E & _)|[H _]]; [eauto | lia].
  - destruct (list_index_spec l (Z.to_nat i)) as [(H & a & E & _)|[H E]].
    + left; split; [lia|]; split; eauto.
    + right; right; split; [lia | exact E].
Qed.

(** [X17] The driver of [onetask-D-scaling-1] launches one job for each
    task index from 0 to 18, with [D = 1000 * (task_idx + 1)] and after
    sleeping [5 * task_idx] seconds.  Any other index launches nothing: a
    sleep length that the clock type cannot hold raises [OverflowError],
    otherwise a negative index raises [ValueError] in [time.sleep] and an
    index of 19 or more raises [IndexError] after the sleep. *)
Theorem onetask_main_outcome (clock_max task_idx : Z) :
  (90 <= clock_max)%Z ->
  onetask_D_scaling_1.main clock_max task_idx
  = if (clock_max <? 5 * Z.abs task_idx)%Z then RaisedOverflowError
    else if (task_idx <? 0)%Z then Raised ValueError
    else if (task_idx <? 19)%Z
         then Launched (5 * task_idx, onetask_D_scaling_1.launch (1000 * (task_idx + 1)))%Z
         else Raised IndexError.
Proof.
  intros Hclock; unfold onetask_D_scaling_1.main, sleep.
  replace (Z.abs (task_idx * 5)) with (5 * Z.abs task_idx)%Z by lia.
  destruct (Z.ltb_spec clock_max (5 * Z.abs task_idx)) as [Hover|Hfit]; [reflexivity|].
  destruct (Z.ltb_spec task_idx 0) as [Hneg|Hpos].
  - now replace (task_idx * 5 <? 0)%Z with true by (symmetry; apply Z.ltb_lt; lia).
  - replace (task_idx * 5 <? 0)%Z with false by (symmetry; apply Z.ltb_ge; lia).
    assert (Hlen : length onetask_D_scaling_1.Ds = 19) by reflexivity.
    unfold py_index.
    replace (task_idx <? 0)%Z with false by (symmetry; apply Z.ltb_ge; lia).
    unfold list_index.
    destruct (Z.ltb_spec task_idx 19) as [Hin|Hout].
    + unfold onetask_D_scaling_1.Ds.
      rewrite nth_error_py_range by (fold onetask_D_scaling_1.Ds; lia).
      rewrite Z2Nat.id by lia.
      replace (1000 + task_idx * 1000)%Z with (1000 * (task_idx + 1))%Z by lia.
      replace (task_idx * 5)%Z with (5 * task_idx)%Z by lia.
      reflexivity.
    + replace (nth_error onetask_D_scaling_1.Ds (Z.to_nat task_idx)) with (@None Z)
        by (symmetry; apply nth_error_None; lia).
      reflexivity.
Qed.

Lemma onetask_main_outcome_witness :
  onetask_D_scaling_1.main 9223372036 7
  = if (9223372036 <? 5 * Z.abs 7)%Z then RaisedOverflowError
    else if (7 <? 0)%Z then Raised ValueError
    else if (7 <? 19)%Z
         then Launched (5 * 7, onetask_D_scaling_1.launch (1000 * (7 + 1)))%Z
         else Raised IndexError.
Proof.
  apply (@onetask_main_outcome 9223372036 7); lia.
Defined.

Lemma length_flat_map_const {A B} (f : A -> list B) m l :
  (forall x, length (f x) = m) -> length (flat_map f l) = length l * m.
Proof.
  intros Hf; induction l as [|x l IH]; simpl; auto.
  now rewrite length_app, Hf, IH.
Qed.

Lemma nth_error_flat_map_const {A B} (f : A -> list B) m l :
  (forall x, length (f x) = m) ->
  forall i j x, nth_error l i = Some x -> j < m ->
  nth_error (flat_map f l) (i * m + j) = nth_error (f x) j.
Proof.
  intros Hf; induction l as [|x0 l IH]; intros [|i] j x E Hj; simpl in E; try discriminate.
  - inversion E; subst; cbn [flat_map Nat.mul Nat.add].
    apply nth_error_app1; now rewrite Hf.
  - cbn [flat_map]; rewrite nth_error_app2 by (rewrite Hf; simpl; lia).
    rewrite Hf; replace (S i * m + j - m) with (i * m + j) by (simpl; lia).
    now apply IH.
Qed.

Lemma product3_length {A B C} (a : list A) (b : list B) (c : list C) :
  length (product3 a b c) = length a * (length b * length c).
Proof.
  unfold product3; apply length_flat_map_const; intros x.
  apply length_flat_map_const; intros y; apply length_map.
Qed.

(** The grid lists the combinations with the last component varying
    fastest. *)
Lemma product3_nth_error {A B C} (a : list A) (b : list B) (c : list C) i j l x y z :
  nth_error a i = Some x -> nth_error b j = Some y -> nth_error c l = Some z ->
  nth_error (product3 a b c) (i * (length b * length c) + (j * length c + l))
  = Some (x, y, z).
Proof.
  intros Ea Eb Ec; unfold product3.
  assert (Hl : l < length c) by (apply nth_error_Some; congruence).
  assert (Hj : j < length b) by (apply nth_error_Some; congruence).
  rewrite (@nth_error_flat_map_const _ _ _ (length b * length c) a) with (x := x); auto.
  - rewrite (@nth_error_flat_map_const _ _ _ (length c) b) with (x := y); auto.
    + now apply map_nth_error.
    + intros y0; apply length_map.
  - intros x0; apply length_flat_map_const; intros y0; apply length_map.
  - nia.
Qed.

(** [X18] The driver of [P-scaling-17] enumerates the grid with the
    seed varying fastest, then alpha, then the width: task index
    [24 * iw + 3 * ia + is] launches the job for [widths[iw]], [alphas[ia]]
    and [seeds[is]].  As the driver does not sleep, a negative index is not
    rejected: the index lowered by the size of the grid launches the same
    job again. *)
Theorem P_scaling_main_grid widths iw ia is_ width alpha seed :
  nth_error widths iw = Some width ->
  nth_error P_scaling_17.alphas ia = Some alpha ->
  nth_error P_scaling_17.seeds is_ = Some seed ->
  let task_idx := Z.of_nat (24 * iw + 3 * ia + is_) in
  P_scaling_17.main widths task_idx = Ok (P_scaling_17.launch width alpha seed) /\
  P_scaling_17.main widths (task_idx - Z.of_nat (24 * length widths))
  = Ok (P_scaling_17.launch width alpha seed).
Proof.
  intros Ew Ea Es; cbv zeta.
  pose proof (@product3_nth_error _ _ _ widths P_scaling_17.alphas P_scaling_17.seeds
                iw ia is_ width alpha seed Ew Ea Es) as E.
  change (length P_scaling_17.alphas) with 8 in E.
  change (length P_scaling_17.seeds) with 3 in E.
  replace (iw * (8 * 3) + (ia * 3 + is_)) with (24 * iw + 3 * ia + is_) in E by lia.
  assert (Hlen : length (P_scaling_17.configs widths) = 24 * length widths).
  { unfold P_scaling_17.configs; rewrite product3_length.
    change (length P_scaling_17.alphas) with 8.
    change (length P_scaling_17.seeds) with 3; lia. }
  assert (Hin : 24 * iw + 3 * ia + is_ < 24 * length widths)
    by (rewrite <- Hlen; apply nth_error_Some; unfold P_scaling_17.configs; congruence).
  unfold P_scaling_17.main, py_index; rewrite Hlen; split.
  - replace (Z.of_nat (24 * iw + 3 * ia + is_) <? 0)%Z with false
      by (symmetry; apply Z.ltb_ge; lia).
    rewrite Nat2Z.id; unfold list_index, P_scaling_17.configs; now rewrite E.
  - replace (Z.of_nat (24 * iw + 3 * ia + is_) - Z.of_nat (24 * length widths) <? 0)%Z
      with true by (symmetry; apply Z.ltb_lt; lia).
    replace (Z.of_nat (24 * iw + 3 * ia + is_) - Z.of_nat (24 * length widths)
             + Z.of_nat (24 * length widths))%Z
      with (Z.of_nat (24 * iw + 3 * ia + is_)) by lia.
    replace (Z.of_nat (24 * iw + 3 * ia + is_) <? 0)%Z with false
      by (symmetry; apply Z.ltb_ge; lia).
    rewrite Nat2Z.id; unfold list_index, P_scaling_17.configs; now rewrite E.
Qed.

Lemma P_scaling_main_grid_witness :
  let task_idx := Z.of_nat (24 * 1 + 3 * 5 + 2) in
  P_scaling_17.main [10; 11; 14]%Z task_idx
  = Ok (P_scaling_17.launch 11 (16 # 10)%Q 2) /\
  P_scaling_17.main [10; 11; 14]%Z (task_idx - Z.of_nat (24 * length [10; 11; 14]%Z))
  = Ok (P_scaling_17.launch 11 (16 # 10)%Q 2).
Proof.
  apply (@P_scaling_main_grid [10; 11; 14]%Z 1 5 2 11%Z (16 # 10)%Q 2%Z); reflexivity.
Defined.

(** [X19] The grid of [P-scaling-17] has 24 points per width, and the
    driver raises [IndexError] exactly for the task indices outside
    [-size, size); every other index launches a job. *)
Theorem P_scaling_main_out_of_range widths (task_idx : Z) :
  let size := Z.of_nat (24 * length widths) in
  length (P_scaling_17.configs widths) = 24 * length widths /\
  (P_scaling_17.main widths task_idx = Raise IndexError
   <-> (task_idx < - size \/ size <= task_idx)%Z) /\
  ((- size <= task_idx < size)%Z -> exists cmd, P_scaling_17.main widths task_idx = Ok cmd).
Proof.
  cbv zeta.
  assert (Hlen : length (P_scaling_17.configs widths) = 24 * length widths).
  { unfold P_scaling_17.configs; rewrite product3_length.
    change (length P_scaling_17.alphas) with 8.
    change (length P_scaling_17.seeds) with 3; lia. }
  split; [exact Hlen|].
  unfold P_scaling_17.main.
  destruct (py_index_spec (P_scaling_17.configs widths) task_idx)
    as [(Hr & _ & [[w a] sd] & E)|[(Hr & _ & [[w a] sd] & E)|(Hr & E)]];
    rewrite Hlen in Hr; rewrite E; split.
  - split; [discriminate | lia].
  - eauto.
  - split; [discriminate | lia].
  - eauto.
  - split; auto.
  - lia.
Qed.
